(** * The edit workflow of src/App.tsx

    A shallow embedding of the [App] component: its nine [useState] cells,
    the event handlers that update them, and the pieces of the browser the
    handlers touch (the blob URL store behind [URL.createObjectURL], the
    anchor clicks that save a file, the calls that leave for the
    transformation service).

    Asynchronous handlers are split at their [await]s: the part that runs
    when the event fires, and the part that resumes when the awaited promise
    settles, which takes the outcome of the promise as an argument and runs
    on whatever the state is by then. *)

From Stdlib Require Import String Ascii.
From stdpp Require Import base numbers list gmap sorting.

Local Open Scope N_scope.
Local Open Scope nat_scope.

(** ** JavaScript strings *)

Module JS.

(** A JavaScript string is a sequence of UTF-16 code units; [===] on strings
    compares the sequences. *)
Definition code_unit := N.
Definition jsstring := list code_unit.

(** The code units of an ASCII literal of the source. *)
Definition lit (s : string) : jsstring :=
  map N_of_ascii (list_ascii_of_string s).

(** ECMAScript WhiteSpace: TAB, VT, FF, SP, NBSP, ZWNBSP and the Unicode
    space separators. *)
Definition isWhiteSpace (c : code_unit) : bool :=
  ((c =? 0x0009) || (c =? 0x000B) || (c =? 0x000C) || (c =? 0x0020)
   || (c =? 0x00A0) || (c =? 0xFEFF) || (c =? 0x1680)
   || ((0x2000 <=? c) && (c <=? 0x200A))
   || (c =? 0x202F) || (c =? 0x205F) || (c =? 0x3000))%N.

(** ECMAScript LineTerminator: LF, CR, LS, PS. *)
Definition isLineTerminator (c : code_unit) : bool :=
  ((c =? 0x000A) || (c =? 0x000D) || (c =? 0x2028) || (c =? 0x2029))%N.

Definition isTrimmed (c : code_unit) : bool :=
  isWhiteSpace c || isLineTerminator c.

Fixpoint trimStart (s : jsstring) : jsstring :=
  match s with
  | [] => []
  | c :: r => if isTrimmed c then trimStart r else s
  end.

Definition trimEnd (s : jsstring) : jsstring :=
  reverse (trimStart (reverse s)).

(** [String.prototype.trim] *)
Definition trim (s : jsstring) : jsstring := trimEnd (trimStart s).

(** ToBoolean on a string: only the empty string is falsy. *)
Definition truthy (s : jsstring) : bool :=
  match s with [] => false | _ :: _ => true end.

(** [s.indexOf(c)] for a one-character search string: the first index of
    [c], or -1. *)
Fixpoint indexOf (c : code_unit) (s : jsstring) : Z :=
  match s with
  | [] => (-1)%Z
  | x :: r =>
      if (x =? c)%N then 0%Z
      else let i := indexOf c r in
           if (i <? 0)%Z then (-1)%Z else (i + 1)%Z
  end.

(** [s.substring(start, end)]: both indices are clamped to [0, length] and
    swapped when start exceeds end. *)
Definition substring (start end_ : Z) (s : jsstring) : jsstring :=
  let len := Z.of_nat (length s) in
  let a := Z.min (Z.max start 0) len in
  let b := Z.min (Z.max end_ 0) len in
  let from := Z.min a b in
  let to := Z.max a b in
  take (Z.to_nat (to - from)) (drop (Z.to_nat from) s).

(** [s.split(c)] for a one-character separator: never the empty array. *)
Fixpoint split (sep : code_unit) (s : jsstring) : list jsstring :=
  match s with
  | [] => [[]]
  | x :: r =>
      if (x =? sep)%N then [] :: split sep r
      else match split sep r with
           | seg :: segs => (x :: seg) :: segs
           | [] => [[x]]
           end
  end.

(** [a || b] on a possibly undefined string. *)
Definition orElse (a : option jsstring) (b : jsstring) : jsstring :=
  match a with
  | Some s => if truthy s then s else b
  | None => b
  end.

End JS.

Import JS.

(** ** Prompt history *)

(** The updater handed to [setPromptHistory] (App.tsx lines 110-114). *)
Definition recordPrompt (trimmedPrompt : jsstring) (prevHistory : list jsstring)
  : list jsstring :=
  let filteredHistory := filter (λ p, p ≠ trimmedPrompt) prevHistory in
  let newHistory := take 5 (trimmedPrompt :: filteredHistory) in
  newHistory.

(** The ledger's [record] is not a function of its own in App.tsx: it is what
    [handleSubmit] does to [promptHistory] once an image is present, namely
    the trim of line 99, the emptiness test of line 100 and the updater
    above ([handleSubmit_ledger] below ties the two together). *)
Definition record (instruction : jsstring) (ledger : list jsstring)
  : list jsstring :=
  let trimmedPrompt := trim instruction in
  if truthy trimmedPrompt then recordPrompt trimmedPrompt ledger else ledger.


(** ** Component state *)

(** A [File]: name, declared media type, content bytes. *)
Record File := mkFile {
  fileName : jsstring;
  fileType : jsstring;
  fileBytes : list N
}.

(** Modelled from the spec: the declaration of [EditImageResult] lives in
    ./types, outside src/. The spec's EditResult is an output image reference
    with an optional narrative text; App.tsx reads the two fields as
    [editedResult?.imageUrl] and [editedResult?.text] and hands them to props
    of type [string | null]. *)
Record EditImageResult := mkResult {
  imageUrl : option jsstring;
  text : option jsstring
}.

(** An object URL minted by [URL.createObjectURL]: the browser numbers them,
    each one is a non-empty string that was never handed out before. *)
Definition objectURL := nat.

(** The [useState] cells of [App] (lines 33-41), under their own names. *)
Record AppState := mkApp {
  originalImage : option File;
  originalImagePreview : option objectURL;
  prompt : jsstring;
  promptHistory : list jsstring;
  editedResult : option EditImageResult;
  isLoading : bool;
  error : option jsstring;
  isAdModalOpen : bool;
  imageToDownload : option jsstring
}.

Definition setOriginalImage (v : option File) (s : AppState) : AppState :=
  mkApp v (originalImagePreview s) (prompt s) (promptHistory s)
        (editedResult s) (isLoading s) (error s) (isAdModalOpen s)
        (imageToDownload s).

Definition setOriginalImagePreview (v : option objectURL) (s : AppState)
  : AppState :=
  mkApp (originalImage s) v (prompt s) (promptHistory s)
        (editedResult s) (isLoading s) (error s) (isAdModalOpen s)
        (imageToDownload s).

Definition setPrompt (v : jsstring) (s : AppState) : AppState :=
  mkApp (originalImage s) (originalImagePreview s) v (promptHistory s)
        (editedResult s) (isLoading s) (error s) (isAdModalOpen s)
        (imageToDownload s).

(** [setPromptHistory] is called with a value (line 79) and with an updater
    (line 110); the updater form covers both. *)
Definition setPromptHistory (f : list jsstring → list jsstring) (s : AppState)
  : AppState :=
  mkApp (originalImage s) (originalImagePreview s) (prompt s)
        (f (promptHistory s))
        (editedResult s) (isLoading s) (error s) (isAdModalOpen s)
        (imageToDownload s).

Definition setEditedResult (v : option EditImageResult) (s : AppState)
  : AppState :=
  mkApp (originalImage s) (originalImagePreview s) (prompt s) (promptHistory s)
        v (isLoading s) (error s) (isAdModalOpen s) (imageToDownload s).

Definition setIsLoading (v : bool) (s : AppState) : AppState :=
  mkApp (originalImage s) (originalImagePreview s) (prompt s) (promptHistory s)
        (editedResult s) v (error s) (isAdModalOpen s) (imageToDownload s).

Definition setError (v : option jsstring) (s : AppState) : AppState :=
  mkApp (originalImage s) (originalImagePreview s) (prompt s) (promptHistory s)
        (editedResult s) (isLoading s) v (isAdModalOpen s) (imageToDownload s).

Definition setIsAdModalOpen (v : bool) (s : AppState) : AppState :=
  mkApp (originalImage s) (originalImagePreview s) (prompt s) (promptHistory s)
        (editedResult s) (isLoading s) (error s) v (imageToDownload s).

Definition setImageToDownload (v : option jsstring) (s : AppState) : AppState :=
  mkApp (originalImage s) (originalImagePreview s) (prompt s) (promptHistory s)
        (editedResult s) (isLoading s) (error s) (isAdModalOpen s) v.

(** The initial values of the [useState] calls. *)
Definition initialApp : AppState :=
  mkApp None None [] [] None false None false None.

(** ** The browser around the component *)

(** One run of the [try] block of [handleSubmit]: the values its closure
    holds while it is suspended, [originalImage] for the encoder and [prompt]
    for the service. *)
Record Submission := mkSubmission {
  sub_file : File;
  sub_prompt : jsstring
}.

(** One click on the anchor that [startDownload] builds. *)
Record Download := mkDownload {
  href : jsstring;
  download : jsstring
}.

Record World := mkWorld {
  app : AppState;
  (** the blob URL store: the object URLs created and not revoked *)
  blobStore : gmap objectURL File;
  (** the next object URL the browser will mint *)
  blobCounter : nat;
  (** the submissions that entered the [try] block, oldest first *)
  submissions : list Submission;
  (** the anchors clicked, oldest first *)
  downloads : list Download
}.

Definition onApp (f : AppState → AppState) (w : World) : World :=
  mkWorld (f (app w)) (blobStore w) (blobCounter w) (submissions w)
          (downloads w).

Definition initialWorld : World := mkWorld initialApp ∅ 0 [] [].

(** [URL.createObjectURL(file)]: registers the file under a fresh URL. *)
Definition createObjectURL (file : File) (w : World) : objectURL * World :=
  (blobCounter w,
   mkWorld (app w) (<[blobCounter w := file]> (blobStore w))
           (S (blobCounter w)) (submissions w) (downloads w)).

(** [URL.revokeObjectURL(url)], the release of a preview reference. No
    handler of App.tsx calls it. *)
Definition revokeObjectURL (url : objectURL) (w : World) : World :=
  mkWorld (app w) (delete url (blobStore w)) (blobCounter w) (submissions w)
          (downloads w).

(** ** Handlers *)

(** lines 44-50 *)
Definition handleImageUpload (file : File) (w : World) : World :=
  let w := onApp (setOriginalImage (Some file)) w in
  let '(url, w) := createObjectURL file w in
  let w := onApp (setOriginalImagePreview (Some url)) w in
  let w := onApp (setEditedResult None) w in
  let w := onApp (setError None) w in
  onApp (setPrompt []) w.

(** lines 73-81 *)
Definition resetState (w : World) : World :=
  let w := onApp (setOriginalImage None) w in
  let w := onApp (setOriginalImagePreview None) w in
  let w := onApp (setEditedResult None) w in
  let w := onApp (setError None) w in
  let w := onApp (setPrompt []) w in
  let w := onApp (setPromptHistory (λ _, [])) w in
  onApp (setIsLoading false) w.

(** How the promise of [fetch(imageUrl)] followed by [response.blob()] can
    settle. *)
Inductive FetchOutcome :=
| FetchRejected                              (* fetch itself rejects *)
| FetchNotOk (status : N)                    (* !response.ok *)
| BlobRejected                               (* response.blob() rejects *)
| FetchedBlob (blobType : jsstring) (bytes : list N).

Definition exampleErrorMessage : jsstring :=
  lit "Sorry, we couldn't load that example. Please try another or upload your own image.".

(** lines 53-54: up to the first [await]. *)
Definition handleExampleSelect_begin (w : World) : World :=
  onApp (setError None) w.

(** lines 56-69: from the first [await] on. *)
Definition handleExampleSelect_resume
    (imageUrl examplePrompt : jsstring) (o : FetchOutcome) (w : World) : World :=
  match o with
  | FetchedBlob blobType bytes =>
      let filename :=
        orElse (last (split 47%N imageUrl)) (lit "example.jpg") in
      let file := mkFile filename blobType bytes in
      let w := handleImageUpload file w in
      onApp (setPrompt examplePrompt) w
  | FetchRejected | FetchNotOk _ | BlobRejected =>
      onApp (setError (Some exampleErrorMessage)) w
  end.

(** lines 52-70, when nothing else happens while the fetch is pending. *)
Definition handleExampleSelect
    (imageUrl examplePrompt : jsstring) (o : FetchOutcome) (w : World) : World :=
  handleExampleSelect_resume imageUrl examplePrompt o
    (handleExampleSelect_begin w).

Definition validationMessage : jsstring :=
  lit "Please provide an image and a descriptive prompt.".

Definition startSubmission (file : File) (instruction : jsstring) (w : World)
  : World :=
  mkWorld (app w) (blobStore w) (blobCounter w)
          (submissions w ++ [mkSubmission file instruction]) (downloads w).

(** lines 98-117: [handleSubmit] up to its first [await]. When the guard of
    line 100 passes, the closure that goes on to encode [originalImage] and
    to call the service with [prompt] is appended to [submissions]. *)
Definition handleSubmit (w : World) : World :=
  let prompt := prompt (app w) in
  let trimmedPrompt := trim prompt in
  match originalImage (app w) with
  | Some originalImage =>
      if truthy trimmedPrompt then
        let w := onApp (setIsLoading true) w in
        let w := onApp (setError None) w in
        let w := onApp (setEditedResult None) w in
        let w := onApp (setPromptHistory (recordPrompt trimmedPrompt)) w in
        startSubmission originalImage prompt w
      else onApp (setError (Some validationMessage)) w
  | None => onApp (setError (Some validationMessage)) w
  end.

(** lines 83-95: what [convertFileToBase64] resolves to, from the data URL
    the [FileReader] produced. [base64] is undefined when the data URL has no
    comma. *)
Definition decodeDataURL (result : jsstring) : option jsstring * jsstring :=
  let mimeType := substring 5 (indexOf 59%N result) result in
  let base64 := split 44%N result !! 1 in
  (base64, mimeType).

(** The arguments of [editImageWithGemini] on line 118, for a suspended
    submission whose file was read as [dataURL]. *)
Record ServiceCall := mkCall {
  call_base64 : option jsstring;
  call_mimeType : jsstring;
  call_instruction : jsstring
}.

Definition serviceCall (sub : Submission) (dataURL : jsstring) : ServiceCall :=
  let '(base64, mimeType) := decodeDataURL dataURL in
  mkCall base64 mimeType (sub_prompt sub).

(** What a [catch] clause can receive. *)
Inductive Thrown :=
| ThrownError (message : jsstring)   (* err instanceof Error *)
| ThrownOther.

(** How the two awaits of lines 117-118 can end: the result of the service,
    or whatever the encoder or the service threw. *)
Inductive Outcome :=
| Resolved (result : EditImageResult)
| Rejected (err : Thrown).

Definition unexpectedMessage : jsstring :=
  lit "An unexpected error occurred. Please try again.".

(** lines 119-129: the rest of [handleSubmit], run on the state of the moment
    the promise settles. *)
Definition handleSubmit_resume (o : Outcome) (w : World) : World :=
  let w :=
    match o with
    | Resolved result => onApp (setEditedResult (Some result)) w
    | Rejected (ThrownError message) => onApp (setError (Some message)) w
    | Rejected ThrownOther => onApp (setError (Some unexpectedMessage)) w
    end in
  onApp (setIsLoading false) w.

(** lines 141-145 *)
Definition handleDownloadRequest (url : jsstring) (w : World) : World :=
  if negb (truthy url) then w
  else
    let w := onApp (setImageToDownload (Some url)) w in
    onApp (setIsAdModalOpen true) w.

(** lines 153-155: the file name the anchor suggests. *)
Definition downloadName (imageToDownload : jsstring) : jsstring :=
  let mimeType :=
    substring (indexOf 58%N imageToDownload + 1) (indexOf 59%N imageToDownload)
              imageToDownload in
  let extension := orElse (split 47%N mimeType !! 1) (lit "png") in
  lit "edited-image-by-banana-ai." ++ extension.

Definition clickAnchor (d : Download) (w : World) : World :=
  mkWorld (app w) (blobStore w) (blobCounter w) (submissions w)
          (downloads w ++ [d]).

(** lines 147-162 *)
Definition startDownload (w : World) : World :=
  match imageToDownload (app w) with
  | None => w
  | Some url =>
      if negb (truthy url) then w
      else
        let w := clickAnchor (mkDownload url (downloadName url)) w in
        onApp (setImageToDownload None) w
  end.

(** lines 164-167 *)
Definition handleAdModalClose (w : World) : World :=
  let w := onApp (setIsAdModalOpen false) w in
  startDownload w.

(** ** What the rendered page lets through *)

(** The form, and with it the submit button and the result panels, is
    rendered only when [originalImagePreview] is set (line 174). *)
Definition formRendered (s : AppState) : bool :=
  match originalImagePreview s with Some _ => true | None => false end.

(** line 203: [disabled={isLoading || !prompt.trim()}] *)
Definition submitDisabled (s : AppState) : bool :=
  isLoading s || negb (truthy (trim (prompt s))).

(** A click on the submit button: a disabled button dispatches no submit
    event, so [handleSubmit] does not run. *)
Definition clickSubmit (w : World) : World :=
  if formRendered (app w) && negb (submitDisabled (app w))
  then handleSubmit w else w.

(** lines 240 and 271: the Download button of the Edited panel exists only
    for a truthy [editedResult?.imageUrl] while not loading, and passes that
    URL on. *)
Definition downloadButton (s : AppState) : option jsstring :=
  if formRendered s then
    match editedResult s with
    | Some r =>
        match imageUrl r with
        | Some url => if truthy url && negb (isLoading s) then Some url else None
        | None => None
        end
    | None => None
    end
  else None.

Definition clickDownload (w : World) : World :=
  match downloadButton (app w) with
  | Some url => handleDownloadRequest url w
  | None => w
  end.

(** ** Vocabulary of the properties *)

(** The typing of the prompt into the textarea (line 195). *)
Definition typePrompt (v : jsstring) (w : World) : World :=
  onApp (setPrompt v) w.

(** Ingestions and full resets, as the user interleaves them. *)
Inductive IngestOp :=
| Ingest (file : File)
| FullReset.

Definition runOp (w : World) (op : IngestOp) : World :=
  match op with
  | Ingest file => handleImageUpload file w
  | FullReset => resetState w
  end.

Definition runOps (ops : list IngestOp) (w : World) : World :=
  foldl runOp w ops.

(** The files a sequence of operations ingests, in order. *)
Fixpoint ingested (ops : list IngestOp) : list File :=
  match ops with
  | [] => []
  | Ingest file :: ops => file :: ingested ops
  | FullReset :: ops => ingested ops
  end.

(** No preview reference but the current one is allocated. *)
Definition previewsReleased (w : World) : Prop :=
  ∀ url, is_Some (blobStore w !! url) → originalImagePreview (app w) = Some url.

(** A submission is in flight, as the component sees it. *)
Definition Submitting (s : AppState) : Prop := isLoading s = true.

(** An image is present and nothing is loading or shown as the result. *)
Definition Ready (s : AppState) : Prop :=
  is_Some (originalImage s) ∧ isLoading s = false ∧ editedResult s = None.

(** The completion of a submission that a full reset overtook leaves the
    reset state as it is. *)
Definition completionDiscarded (o : Outcome) (w : World) : Prop :=
  handleSubmit_resume o (resetState w) = resetState w.

Definition fetchFailed (o : FetchOutcome) : bool :=
  match o with
  | FetchedBlob _ _ => false
  | FetchRejected | FetchNotOk _ | BlobRejected => true
  end.

(** ** Recency, in the words of the spec *)






(** The user types each instruction in turn and submits it. *)
Definition submitAll (instructions : list jsstring) (w : World) : World :=
  foldl (λ w x, handleSubmit (typePrompt x w)) w instructions.

(** Sample data for the scenarios. *)
Module Sample.

Definition catPng : File := mkFile (lit "cat.png") (lit "image/png") [137; 80; 78; 71]%N.
Definition dogJpg : File := mkFile (lit "dog.jpg") (lit "image/jpeg") [255; 216; 255]%N.

Definition pngUrl : jsstring := lit "data:image/png;base64,iVBORw0KGgo=".
Definition jpegUrl : jsstring := lit "data:image/jpeg;base64,/9j/4AAQ".

Definition R1 : EditImageResult := mkResult (Some pngUrl) (Some (lit "Added a hat.")).
Definition R2 : EditImageResult := mkResult (Some jpegUrl) None.

(** An image is uploaded and a prompt with blanks around it is typed. *)
Definition typed : World :=
  typePrompt (lit "  add hat ") (handleImageUpload catPng initialWorld).

(** The submission of [typed] is in flight. *)
Definition inFlight : World := clickSubmit typed.

(** Two submissions are in flight, the first one overtaken by a full reset.
    The first returns [R1] and its download is requested; then the second
    returns [R2], which becomes the result on display while the download of
    [R1] is still pending behind the modal. *)
Definition pendingR1 : World :=
  let w := clickSubmit typed in
  let w := resetState w in
  let w := typePrompt (lit "add hat") (handleImageUpload dogJpg w) in
  let w := clickSubmit w in
  let w := handleSubmit_resume (Resolved R1) w in
  let w := clickDownload w in
  handleSubmit_resume (Resolved R2) w.

End Sample.

(** ** The remaining handlers and what the page shows *)

(** lines 16-29 *)
Definition examplePrompts : list jsstring := [
  lit "Add a pair of cool sunglasses to the subject.";
  lit "Change the background to a beautiful beach at sunset.";
  lit "Make the cat wear a tiny wizard hat.";
  lit "Turn the photo into a black and white vintage-style image.";
  lit "Add a subtle flying saucer in the sky.";
  lit "Make it look like it's snowing lightly.";
  lit "Add a reflection of a futuristic cityscape in the person's glasses.";
  lit "Give the dog a superhero cape.";
  lit "Change the color of the car to a vibrant cherry red.";
  lit "Surround the main subject with glowing, magical butterflies.";
  lit "Place a steaming cup of coffee on the table.";
  lit "Make the sky look like a van Gogh painting."
].

(** lines 132-135. [randomIndex] stands for
    [Math.floor(Math.random() * examplePrompts.length)], an index below the
    length of the array; the lookup of any other index is not the code's and
    leaves the state alone here. *)
Definition handleExamplePrompt (randomIndex : nat) (w : World) : World :=
  match examplePrompts !! randomIndex with
  | Some examplePrompt => onApp (setPrompt examplePrompt) w
  | None => w
  end.

(** lines 137-139 *)
Definition handleSelectPromptFromHistory (selectedPrompt : jsstring) (w : World)
  : World :=
  onApp (setPrompt selectedPrompt) w.

(** lines 182 and 229: the error banner. On the upload page it shows any
    non-empty [error]; on the form page only while nothing is loading. *)
Definition errorBanner (s : AppState) : option jsstring :=
  match error s with
  | Some message =>
      if truthy message then
        if formRendered s then (if isLoading s then None else Some message)
        else Some message
      else None
  | None => None
  end.

(** lines 283-289: what the Edited panel shows. *)
Inductive PanelView :=
| ShowLoader
| ShowImage (src : jsstring)
| ShowPlaceholder.

Definition editedPanel (s : AppState) : option PanelView :=
  if formRendered s then
    Some (if isLoading s then ShowLoader
          else match editedResult s with
               | Some r =>
                   match imageUrl r with
                   | Some url => if truthy url then ShowImage url else ShowPlaceholder
                   | None => ShowPlaceholder
                   end
               | None => ShowPlaceholder
               end)
  else None.

(** ** Runs of the component *)

(** One handler invocation. Every handler is taken to be callable at any
    moment and with any argument; what the rendered page lets through is a
    part of these runs. *)
Inductive Event :=
| ImageUploaded (file : File)
| ExampleSelected
| ExampleSettled (imageUrl examplePrompt : jsstring) (o : FetchOutcome)
| ResetClicked
| PromptTyped (v : jsstring)
| ExamplePromptClicked (randomIndex : nat)
| HistorySelected (selectedPrompt : jsstring)
| Submitted
| SubmitSettled (o : Outcome)
| DownloadRequested (url : jsstring)
| AdModalClosed.

Definition step (w : World) (e : Event) : World :=
  match e with
  | ImageUploaded file => handleImageUpload file w
  | ExampleSelected => handleExampleSelect_begin w
  | ExampleSettled imageUrl examplePrompt o =>
      handleExampleSelect_resume imageUrl examplePrompt o w
  | ResetClicked => resetState w
  | PromptTyped v => typePrompt v w
  | ExamplePromptClicked randomIndex => handleExamplePrompt randomIndex w
  | HistorySelected selectedPrompt => handleSelectPromptFromHistory selectedPrompt w
  | Submitted => handleSubmit w
  | SubmitSettled o => handleSubmit_resume o w
  | DownloadRequested url => handleDownloadRequest url w
  | AdModalClosed => handleAdModalClose w
  end.

Definition run (events : list Event) (w : World) : World :=
  foldl step w events.

(** How often the modal was closed, and how many release requests carried a
    non-empty URL. *)
Definition isClose (e : Event) : bool :=
  match e with AdModalClosed => true | _ => false end.

Definition closes (events : list Event) : nat :=
  length (filter (λ e, isClose e = true) events).

Definition isRequest (e : Event) : bool :=
  match e with DownloadRequested url => truthy url | _ => false end.

Definition requests (events : list Event) : nat :=
  length (filter (λ e, isRequest e = true) events).

(** A string that does not begin with a character [trim] removes. *)
Definition startsClean (s : jsstring) : Prop :=
  match s with [] => True | c :: _ => isTrimmed c = false end.

(** A string that [trim] leaves alone and that is not empty. *)
Definition trimmedNonBlank (p : jsstring) : Prop :=
  trim p = p ∧ truthy p = true.

(** The ledger as every run keeps it. *)
Definition ledgerOk (h : list jsstring) : Prop :=
  length h ≤ 5 ∧ NoDup h ∧ Forall trimmedNonBlank h.

(** The image and its preview come and go together, and the preview is the
    object URL registered for the image. *)
Definition assetOk (w : World) : Prop :=
  match originalImage (app w), originalImagePreview (app w) with
  | Some file, Some url => blobStore w !! url = Some file
  | None, None => True
  | _, _ => False
  end.

(** The modal is open exactly while a non-empty URL waits to be saved. *)
Definition gateOk (s : AppState) : Prop :=
  match imageToDownload s with
  | Some url => truthy url = true ∧ isAdModalOpen s = true
  | None => isAdModalOpen s = false
  end.

Definition pendingCount (s : AppState) : nat :=
  match imageToDownload s with Some _ => 1 | None => 0 end.

(** A saved file: a non-empty address under the name derived from it. *)
Definition savedOk (d : Download) : Prop :=
  truthy (href d) = true ∧ download d = downloadName (href d).

(** * Properties *)

(** ** The string primitives on the inputs the handlers meet *)

Example trim_blanks : trim (lit "  add hat ") = lit "add hat".
Proof. reflexivity. Qed.

Example trim_unicode :
  trim [0x09; 0x0A; 0xA0; 0x61; 0x20; 0x62; 0x2028; 0xFEFF]%N
  = [0x61; 0x20; 0x62]%N.
Proof. reflexivity. Qed.

Example trim_all_blank : truthy (trim (lit "   ")) = false.
Proof. reflexivity. Qed.

Example substring_swaps : substring 4 1 (lit "abcdef") = lit "bcd".
Proof. reflexivity. Qed.

Example decodeDataURL_png :
  decodeDataURL Sample.pngUrl = (Some (lit "iVBORw0KGgo="), lit "image/png").
Proof. reflexivity. Qed.

Example split_no_separator : split 44%N (lit "abc") !! 1 = None.
Proof. reflexivity. Qed.

(** ** The ledger *)

Section Ledger.

Implicit Types (t x : jsstring) (h : list jsstring).

Lemma recordPrompt_cons t h :
  recordPrompt t h = t :: take 4 (filter (λ p, p ≠ t) h).
Proof. reflexivity. Qed.

Lemma recordPrompt_length t h : length (recordPrompt t h) ≤ 5.
Proof. unfold recordPrompt. rewrite length_take. lia. Qed.

Lemma recordPrompt_tail_fresh t h : t ∉ take 4 (filter (λ p, p ≠ t) h).
Proof.
  intros Hin. apply elem_of_take in Hin as (i & Hi & _).
  apply list_elem_of_lookup_2, list_elem_of_filter in Hi as [Hne _].
  by apply Hne.
Qed.

Lemma recordPrompt_NoDup t h : NoDup h → NoDup (recordPrompt t h).
Proof.
  intros Hnd. rewrite recordPrompt_cons. apply NoDup_cons. split.
  - apply recordPrompt_tail_fresh.
  - eapply sublist_NoDup; [|apply sublist_take]. by apply NoDup_filter.
Qed.

Lemma filter_ne_fresh t h : t ∉ h → filter (λ p, p ≠ t) h = h.
Proof.
  induction h as [|a h IH]; intros Hnin; [done|].
  apply not_elem_of_cons in Hnin as [Hne Hnin].
  rewrite filter_cons_True by done. by rewrite IH.
Qed.

Lemma recordPrompt_idemp t h : recordPrompt t (recordPrompt t h) = recordPrompt t h.
Proof.
  rewrite (recordPrompt_cons t h), recordPrompt_cons.
  rewrite filter_cons_False by (intros Hne; by apply Hne).
  rewrite filter_ne_fresh by apply recordPrompt_tail_fresh.
  by rewrite take_take.
Qed.







End Ledger.

(** [handleSubmit] acts on the ledger by [record], whenever an image is
    present. *)
Lemma handleSubmit_ledger (w : World) (file : File) :
  originalImage (app w) = Some file →
  promptHistory (app (handleSubmit w))
  = record (prompt (app w)) (promptHistory (app w)).
Proof.
  intros Himg. unfold handleSubmit, record. rewrite Himg.
  by destruct (truthy (trim (prompt (app w)))).
Qed.

(** C4. For every ledger and every instruction [x], recording [x] (what
    [handleSubmit] does to [promptHistory] when an image is present) trims
    [x]; a blank trimmed value changes nothing; otherwise every entry equal
    to the trimmed value is removed, the trimmed value is put in front and
    the list is cut to its first 5 entries. Recording a second instruction
    with the same trimmed value right after leaves exactly one entry equal to
    it, at position 0. *)
Theorem record_trim_dedup_prepend_truncate
    (w : World) (file : File) (x' : jsstring) :
  originalImage (app w) = Some file →
  let x := prompt (app w) in
  let h := promptHistory (app w) in
  promptHistory (app (handleSubmit w)) = record x h
  ∧ (truthy (trim x) = false → record x h = h)
  ∧ (truthy (trim x) = true →
       record x h = take 5 (trim x :: filter (λ p, p ≠ trim x) h)
       ∧ (trim x' = trim x →
            ∃ rest, record x' (record x h) = trim x :: rest ∧ trim x ∉ rest)).
Proof.
  intros Himg x h. split; [by eapply handleSubmit_ledger|].
  unfold record. split; intros Ht; rewrite Ht; [done|].
  split; [done|]. intros ->. rewrite Ht, recordPrompt_idemp.
  eexists. split; [apply recordPrompt_cons|apply recordPrompt_tail_fresh].
Qed.

Lemma record_trim_dedup_prepend_truncate_witness :
  ∃ rest,
    record (lit "add hat ")
           (record (lit "  add hat ") [lit "grow"; lit "add hat"; lit "blur"])
    = lit "add hat" :: rest
    ∧ lit "add hat" ∉ rest.
Proof.
  apply (record_trim_dedup_prepend_truncate
           (onApp (setPromptHistory (λ _, [lit "grow"; lit "add hat"; lit "blur"]))
                  Sample.typed)
           Sample.catPng (lit "add hat ")); reflexivity.
Defined.

Section Recency.

Implicit Types (t p q : jsstring) (uses l h : list jsstring).














End Recency.


(** A prompt used again moves to the front and is safe from the next
    eviction: after a, b, c, d, e, a, f the ledger is f, a, e, d, c, and b, the
    least recently used, is the one that went. *)
Example ledger_reuse_then_sixth :
  promptHistory
    (app (submitAll [lit "a"; lit "b"; lit "c"; lit "d"; lit "e"; lit "a"; lit "f"]
            (handleImageUpload Sample.catPng initialWorld)))
  = [lit "f"; lit "a"; lit "e"; lit "d"; lit "c"].
Proof. reflexivity. Qed.


(** ** Submission *)

(** C6. In every state, and so in every Ready one, [handleSubmit] on a
    prompt that is empty or all whitespace does nothing but set the fixed
    validation message: no submission starts, and the image, the result, the
    loading flag, the prompt and the ledger are as before, so a Ready state
    stays Ready. *)
Theorem submit_blank_rejected (w : World) :
  truthy (trim (prompt (app w))) = false →
  let w' := handleSubmit w in
  w' = onApp (setError (Some validationMessage)) w
  ∧ error (app w') = Some validationMessage
  ∧ originalImage (app w') = originalImage (app w)
  ∧ editedResult (app w') = editedResult (app w)
  ∧ isLoading (app w') = isLoading (app w)
  ∧ promptHistory (app w') = promptHistory (app w)
  ∧ submissions w' = submissions w
  ∧ (Ready (app w) → Ready (app w')).
Proof.
  intros Hblank w'.
  assert (w' = onApp (setError (Some validationMessage)) w) as ->.
  { unfold w', handleSubmit. rewrite Hblank. by destruct (originalImage (app w)). }
  split_and!; done.
Qed.

Lemma submit_blank_rejected_witness :
  let w := typePrompt (lit "   ") (handleImageUpload Sample.catPng initialWorld) in
  Ready (app w)
  ∧ handleSubmit w = onApp (setError (Some validationMessage)) w
  ∧ Ready (app (handleSubmit w)).
Proof.
  intros w.
  assert (Ready (app w)) as Hready by (split_and!; [by eexists|done..]).
  pose proof (submit_blank_rejected w eq_refl) as (Heq & _ & _ & _ & _ & _ & _ & Hkeep).
  split_and!; [exact Hready | exact Heq | exact (Hkeep Hready)].
Defined.

(** C2. While a submission is in flight ([isLoading] is true) the submit
    button is disabled, so a further submit changes nothing at all: no second
    submission starts, the one in flight is untouched and the ledger is as it
    was. *)
Theorem submit_while_submitting_rejected (w : World) :
  Submitting (app w) →
  clickSubmit w = w
  ∧ submissions (clickSubmit w) = submissions w
  ∧ promptHistory (app (clickSubmit w)) = promptHistory (app w).
Proof.
  unfold Submitting. intros Hload.
  assert (clickSubmit w = w) as ->; [|done].
  unfold clickSubmit, submitDisabled. rewrite Hload. simpl.
  by rewrite andb_false_r.
Qed.

Lemma submit_while_submitting_rejected_witness :
  Submitting (app Sample.inFlight)
  ∧ clickSubmit Sample.inFlight = Sample.inFlight.
Proof.
  split; [reflexivity|].
  apply (submit_while_submitting_rejected Sample.inFlight). reflexivity.
Defined.

(** The same button is disabled for a blank prompt: the validation branch of
    [handleSubmit] is a second line of defence behind it. *)
Remark clickSubmit_blank (w : World) :
  truthy (trim (prompt (app w))) = false → clickSubmit w = w.
Proof.
  intros Hblank. unfold clickSubmit, submitDisabled. rewrite Hblank. simpl.
  by rewrite orb_true_r, andb_false_r.
Qed.

(** The rejection of C2 is the button's: [handleSubmit] itself does not look
    at [isLoading], and run on a loading state it starts a submission. *)
Remark handleSubmit_ignores_isLoading (w : World) (file : File) :
  originalImage (app w) = Some file →
  truthy (trim (prompt (app w))) = true →
  submissions (handleSubmit w)
  = submissions w ++ [mkSubmission file (prompt (app w))].
Proof. intros Himg Ht. unfold handleSubmit. by rewrite Himg, Ht. Qed.

(** ** Example images *)

(** C10. When the fetch of an example image fails (it rejects, answers with
    a status that is not ok, or its bytes cannot be read), the handler ends
    with everything as it found it except [error], which holds the fixed
    message; the same is true of its resumption alone, on whatever state the
    failure arrives in. *)
Theorem example_failure_sets_only_error
    (imageUrl examplePrompt : jsstring) (o : FetchOutcome) (w : World) :
  fetchFailed o = true →
  handleExampleSelect imageUrl examplePrompt o w
  = onApp (setError (Some exampleErrorMessage)) w
  ∧ handleExampleSelect_resume imageUrl examplePrompt o w
    = onApp (setError (Some exampleErrorMessage)) w
  ∧ let w' := handleExampleSelect imageUrl examplePrompt o w in
    originalImage (app w') = originalImage (app w)
    ∧ originalImagePreview (app w') = originalImagePreview (app w)
    ∧ prompt (app w') = prompt (app w)
    ∧ editedResult (app w') = editedResult (app w)
    ∧ promptHistory (app w') = promptHistory (app w)
    ∧ blobStore w' = blobStore w
    ∧ error (app w') = Some exampleErrorMessage.
Proof.
  intros Hfail. destruct o; try discriminate Hfail; cbv zeta; split_and!; reflexivity.
Qed.

Lemma example_failure_sets_only_error_witness :
  handleExampleSelect (lit "/examples/cat.jpg") (lit "Give the dog a superhero cape.")
                      (FetchNotOk 404) Sample.pendingR1
  = onApp (setError (Some exampleErrorMessage)) Sample.pendingR1.
Proof.
  apply (example_failure_sets_only_error
           (lit "/examples/cat.jpg") (lit "Give the dog a superhero cape.")
           (FetchNotOk 404) Sample.pendingR1).
  reflexivity.
Defined.

(** ** The download gate *)

Example downloadName_png :
  downloadName Sample.pngUrl = lit "edited-image-by-banana-ai.png".
Proof. reflexivity. Qed.

Example downloadName_no_media_type :
  downloadName (lit "blob:abc") = lit "edited-image-by-banana-ai.png".
Proof. reflexivity. Qed.

Lemma startDownload_nothing_pending (w : World) :
  imageToDownload (app w) = None → startDownload w = w.
Proof. intros Hnone. unfold startDownload. by rewrite Hnone. Qed.

(** C9. A release requested for a non-empty reference and then acknowledged
    reaches the sink exactly once: closing the modal appends one anchor click
    carrying the reference, empties the pending slot and closes the modal;
    and the release step run with an empty slot, as in a second
    acknowledgment, saves nothing. *)
Theorem release_after_acknowledge (ref : jsstring) (w : World) :
  truthy ref = true →
  let requested := handleDownloadRequest ref w in
  let acknowledged := handleAdModalClose requested in
  imageToDownload (app requested) = Some ref
  ∧ isAdModalOpen (app requested) = true
  ∧ downloads requested = downloads w
  ∧ downloads acknowledged = downloads w ++ [mkDownload ref (downloadName ref)]
  ∧ imageToDownload (app acknowledged) = None
  ∧ isAdModalOpen (app acknowledged) = false
  ∧ startDownload acknowledged = acknowledged
  ∧ downloads (handleAdModalClose acknowledged) = downloads acknowledged
  ∧ (∀ w', imageToDownload (app w') = None → startDownload w' = w').
Proof.
  intros Href requested acknowledged.
  unfold acknowledged, requested, handleAdModalClose, handleDownloadRequest,
    startDownload.
  rewrite Href. simpl. rewrite Href. simpl.
  split_and!; [reflexivity..|apply startDownload_nothing_pending].
Qed.

Lemma release_after_acknowledge_witness :
  downloads (handleAdModalClose (handleDownloadRequest Sample.pngUrl initialWorld))
  = [mkDownload Sample.pngUrl (lit "edited-image-by-banana-ai.png")]
  ∧ imageToDownload
      (app (handleAdModalClose (handleDownloadRequest Sample.pngUrl initialWorld)))
    = None.
Proof.
  pose proof (release_after_acknowledge Sample.pngUrl initialWorld eq_refl)
    as (_ & _ & _ & Hsink & Hslot & _).
  split; [exact Hsink | exact Hslot].
Defined.

(** C7, as the claim has it, fails: with the download of one result pending,
    a request for the result on display is not rejected but replaces the
    pending reference. *)
Lemma request_release_replaces_pending :
  imageToDownload (app Sample.pendingR1) = Some Sample.pngUrl
  ∧ isAdModalOpen (app Sample.pendingR1) = true
  ∧ editedResult (app Sample.pendingR1) = Some Sample.R2
  ∧ downloadButton (app Sample.pendingR1) = Some Sample.jpegUrl
  ∧ imageToDownload (app (clickDownload Sample.pendingR1)) = Some Sample.jpegUrl
  ∧ handleDownloadRequest Sample.jpegUrl Sample.pendingR1 ≠ Sample.pendingR1.
Proof.
  split_and!; [reflexivity..|].
  intros Heq. apply (f_equal (λ w, imageToDownload (app w))) in Heq.
  discriminate Heq.
Qed.

(** C7, amended. A release request does nothing when there is no result to
    release: no Download button exists while [editedResult] is empty or a
    submission is loading, and [handleDownloadRequest] returns at once on an
    empty URL. A request for a non-empty URL always goes through, whatever
    the pending slot holds: the URL is stored as the pending download and the
    modal is open. *)
Theorem request_release_gate (url : jsstring) (w : World) :
  (editedResult (app w) = None ∨ isLoading (app w) = true → clickDownload w = w)
  ∧ (truthy url = false → handleDownloadRequest url w = w)
  ∧ (truthy url = true →
       imageToDownload (app (handleDownloadRequest url w)) = Some url
       ∧ isAdModalOpen (app (handleDownloadRequest url w)) = true
       ∧ downloads (handleDownloadRequest url w) = downloads w).
Proof.
  split_and!.
  - intros Hno. unfold clickDownload, downloadButton.
    destruct (formRendered (app w)); [|done].
    destruct Hno as [-> | Hload]; [done|].
    destruct (editedResult (app w)) as [[[u|] ?]|]; simpl; [|done..].
    rewrite Hload. simpl. by rewrite andb_false_r.
  - intros Hu. unfold handleDownloadRequest. by rewrite Hu.
  - intros Hu. unfold handleDownloadRequest. by rewrite Hu.
Qed.

Lemma request_release_gate_witness :
  clickDownload Sample.inFlight = Sample.inFlight
  ∧ handleDownloadRequest [] Sample.pendingR1 = Sample.pendingR1
  ∧ imageToDownload (app (handleDownloadRequest Sample.jpegUrl Sample.pendingR1))
    = Some Sample.jpegUrl.
Proof.
  pose proof (request_release_gate [] Sample.inFlight) as (Hnone & _ & _).
  pose proof (request_release_gate [] Sample.pendingR1) as (_ & Hempty & _).
  pose proof (request_release_gate Sample.jpegUrl Sample.pendingR1)
    as (_ & _ & Hstored).
  split_and!.
  - exact (Hnone (or_introl eq_refl)).
  - exact (Hempty eq_refl).
  - exact (proj1 (Hstored eq_refl)).
Defined.

(** ** Completion after a reset *)

(** C1, as the claim has it, fails: the submission of [Sample.typed] is in
    flight, a full reset follows, and the completion that arrives afterwards
    is applied to the reset state, be it a result or an error. *)
Lemma completion_after_reset_not_discarded :
  Submitting (app Sample.inFlight)
  ∧ ¬ completionDiscarded (Resolved Sample.R1) Sample.inFlight
  ∧ editedResult (app (handleSubmit_resume (Resolved Sample.R1)
                         (resetState Sample.inFlight))) = Some Sample.R1
  ∧ ¬ completionDiscarded (Rejected (ThrownError (lit "quota exceeded")))
        Sample.inFlight
  ∧ error (app (handleSubmit_resume (Rejected (ThrownError (lit "quota exceeded")))
                  (resetState Sample.inFlight))) = Some (lit "quota exceeded").
Proof.
  unfold completionDiscarded. split_and!; try reflexivity.
  - intros Heq. apply (f_equal (λ w, editedResult (app w))) in Heq.
    discriminate Heq.
  - intros Heq. apply (f_equal (λ w, error (app w))) in Heq.
    discriminate Heq.
Qed.

(** C1, amended. The completion of a submission that a full reset overtook
    is applied to the reset state: a result becomes the current result, a
    failure sets the error message (the error's own, or the fixed fallback
    for a thrown value that is no Error), and the loading flag is false; the
    image, its preview, the prompt and the ledger stay cleared, and no
    submission or download is started. *)
Theorem completion_after_reset_applied (o : Outcome) (w : World) :
  let w' := handleSubmit_resume o (resetState w) in
  editedResult (app w')
    = match o with Resolved result => Some result | Rejected _ => None end
  ∧ error (app w')
    = match o with
      | Resolved _ => None
      | Rejected (ThrownError message) => Some message
      | Rejected ThrownOther => Some unexpectedMessage
      end
  ∧ isLoading (app w') = false
  ∧ originalImage (app w') = None
  ∧ originalImagePreview (app w') = None
  ∧ prompt (app w') = []
  ∧ promptHistory (app w') = []
  ∧ submissions w' = submissions w
  ∧ downloads w' = downloads w.
Proof. destruct o as [result|[message|]]; cbv zeta; split_and!; reflexivity. Qed.

(** ** Preview references *)

Section Previews.

Implicit Types (ops : list IngestOp) (w : World).

Lemma runOps_snoc ops op w : runOps (ops ++ [op]) w = runOp (runOps ops w) op.
Proof. unfold runOps. by rewrite foldl_app. Qed.

Lemma ingested_snoc ops op :
  ingested (ops ++ [op])
  = ingested ops ++ match op with Ingest file => [file] | FullReset => [] end.
Proof.
  induction ops as [|[file'|] ops IH]; simpl.
  - destruct op; reflexivity.
  - by rewrite IH.
  - exact IH.
Qed.

(** Neither [handleImageUpload] nor [resetState] revokes an object URL: the
    blob URL store after any run holds the [i]-th ingested file under the
    URL [i]. *)
Lemma runOps_blobStore ops :
  let w := runOps ops initialWorld in
  blobCounter w = length (ingested ops)
  ∧ size (blobStore w) = length (ingested ops)
  ∧ ∀ url, blobStore w !! url = ingested ops !! url.
Proof.
  induction ops as [|op ops IH] using rev_ind; [by split_and!|].
  cbv zeta in *. rewrite runOps_snoc, ingested_snoc.
  destruct IH as (Hctr & Hsize & Hstore).
  destruct op as [file|]; simpl.
  - rewrite Hctr, length_app. simpl. split_and!; [lia| |].
    + rewrite map_size_insert_None; [lia|].
      rewrite Hstore. apply lookup_ge_None_2. lia.
    + intros url. destruct (decide (url = length (ingested ops))) as [->|Hne].
      * rewrite lookup_insert_eq. symmetry. by apply list_lookup_middle.
      * rewrite lookup_insert_ne by done. rewrite Hstore.
        destruct (decide (url < length (ingested ops))).
        -- by rewrite lookup_app_l.
        -- rewrite !lookup_ge_None_2; [done|rewrite length_app; simpl; lia|lia].
  - rewrite app_nil_r. by split_and!.
Qed.

End Previews.

(** C3, as the claim has it, fails: after a second ingestion, and after a
    full reset, the object URL of the first image is still registered. *)
Lemma previews_not_released :
  ¬ previewsReleased
      (runOps [Ingest Sample.catPng; Ingest Sample.dogJpg] initialWorld)
  ∧ ¬ previewsReleased (runOps [Ingest Sample.catPng; FullReset] initialWorld).
Proof.
  split; intros Hrel.
  - pose proof (runOps_blobStore [Ingest Sample.catPng; Ingest Sample.dogJpg])
      as (_ & _ & Hstore).
    assert (is_Some (blobStore (runOps [Ingest Sample.catPng; Ingest Sample.dogJpg]
                                       initialWorld) !! 0)) as Hkept
      by (rewrite Hstore; by eexists).
    apply Hrel in Hkept. discriminate Hkept.
  - pose proof (runOps_blobStore [Ingest Sample.catPng; FullReset])
      as (_ & _ & Hstore).
    assert (is_Some (blobStore (runOps [Ingest Sample.catPng; FullReset]
                                       initialWorld) !! 0)) as Hkept
      by (rewrite Hstore; by eexists).
    apply Hrel in Hkept. discriminate Hkept.
Qed.

(** C3, amended. After any sequence of ingestions and full resets that ends
    with an ingestion, exactly one image is live, the one ingested last, and
    its preview is a newly minted object URL. No object URL is ever revoked:
    the URL minted for the [i]-th ingested file is still registered for that
    file, across later ingestions and resets, and as many URLs are
    registered as files were ingested. *)
Theorem ingest_one_live_asset_previews_kept (ops : list IngestOp) (file : File) :
  let w := runOps (ops ++ [Ingest file]) initialWorld in
  originalImage (app w) = Some file
  ∧ originalImagePreview (app w) = Some (length (ingested ops))
  ∧ blobStore (runOps ops initialWorld) !! length (ingested ops) = None
  ∧ blobStore w !! length (ingested ops) = Some file
  ∧ (∀ url, blobStore w !! url = ingested (ops ++ [Ingest file]) !! url)
  ∧ size (blobStore w) = length (ingested (ops ++ [Ingest file])).
Proof.
  intros w.
  pose proof (runOps_blobStore ops) as (Hctr & _ & Hbefore).
  pose proof (runOps_blobStore (ops ++ [Ingest file])) as (_ & Hsize & Hstore).
  fold w in Hsize, Hstore. cbv zeta in Hctr, Hbefore.
  split_and!; [| | | |exact Hstore|exact Hsize].
  - unfold w. by rewrite runOps_snoc.
  - unfold w. rewrite runOps_snoc. simpl. by rewrite Hctr.
  - rewrite Hbefore. by apply lookup_ge_None_2.
  - rewrite Hstore, ingested_snoc. by apply list_lookup_middle.
Qed.

(** ** The instruction sent to the service *)

(** When a submission starts, the closure that will call the service holds
    the prompt as typed, while the ledger gets its trim in front. *)
Lemma handleSubmit_instruction (w : World) (file : File) (dataURL : jsstring) :
  originalImage (app w) = Some file →
  truthy (trim (prompt (app w))) = true →
  ∃ sub,
    last (submissions (handleSubmit w)) = Some sub
    ∧ call_instruction (serviceCall sub dataURL) = prompt (app w)
    ∧ head (promptHistory (app (handleSubmit w))) = Some (trim (prompt (app w))).
Proof.
  intros Himg Ht. exists (mkSubmission file (prompt (app w))).
  unfold handleSubmit. rewrite Himg, Ht. simpl.
  split_and!; [apply last_snoc | | reflexivity].
  unfold serviceCall. by destruct (decodeDataURL dataURL).
Qed.

(** C8 fails on the code. With an image present and a prompt typed with
    blanks around it, the submission starts, the ledger records the trimmed
    prompt, and the instruction that line 118 passes to the service is the
    prompt with its blanks. *)
Lemma service_gets_untrimmed_prompt :
  prompt (app Sample.typed) = lit "  add hat "
  ∧ submissions Sample.inFlight
    = [mkSubmission Sample.catPng (lit "  add hat ")]
  ∧ call_instruction
      (serviceCall (mkSubmission Sample.catPng (lit "  add hat "))
                   (lit "data:image/png;base64,iVBORw=="))
    = lit "  add hat "
  ∧ promptHistory (app Sample.inFlight) = [lit "add hat"]
  ∧ lit "  add hat " ≠ trim (lit "  add hat ").
Proof. split_and!; [reflexivity..|discriminate]. Qed.

(** * Further properties of the handlers *)

(** ** The string primitives *)

Section Strings.

Implicit Types (c : code_unit) (s l r seg : jsstring).

Lemma indexOf_notin c s : c ∉ s → indexOf c s = (-1)%Z.
Proof.
  induction s as [|x s IH]; intros Hnin; [done|].
  apply not_elem_of_cons in Hnin as [Hne Hnin]. simpl.
  destruct (N.eqb_spec x c) as [->|_]; [done|].
  by rewrite IH.
Qed.

Lemma indexOf_app c l r :
  c ∉ l → indexOf c (l ++ c :: r) = Z.of_nat (length l).
Proof.
  induction l as [|x l IH]; intros Hnin.
  - simpl. by rewrite N.eqb_refl.
  - apply not_elem_of_cons in Hnin as [Hne Hnin].
    rewrite length_cons, Nat2Z.inj_succ. simpl.
    destruct (N.eqb_spec x c) as [->|_]; [done|].
    rewrite IH by done.
    destruct (Z.ltb_spec (Z.of_nat (length l)) 0); lia.
Qed.

Lemma split_notin c s : c ∉ s → split c s = [s].
Proof.
  induction s as [|x s IH]; intros Hnin; [done|].
  apply not_elem_of_cons in Hnin as [Hne Hnin]. simpl.
  destruct (N.eqb_spec x c) as [->|_]; [done|].
  by rewrite IH.
Qed.

Lemma split_app c l r : c ∉ l → split c (l ++ c :: r) = l :: split c r.
Proof.
  induction l as [|x l IH]; intros Hnin; simpl.
  - by rewrite N.eqb_refl.
  - apply not_elem_of_cons in Hnin as [Hne Hnin].
    destruct (N.eqb_spec x c) as [->|_]; [done|].
    by rewrite IH.
Qed.

(** No piece of a split holds the separator. *)
Lemma split_free c s seg : seg ∈ split c s → c ∉ seg.
Proof.
  revert seg. induction s as [|x s IH]; intros seg; simpl.
  - intros ->%list_elem_of_singleton. apply not_elem_of_nil.
  - destruct (N.eqb_spec x c) as [->|Hne].
    + intros [->|Hin]%elem_of_cons; [apply not_elem_of_nil|by apply IH].
    + destruct (split c s) as [|seg0 segs] eqn:Hsplit.
      * intros ->%list_elem_of_singleton.
        apply not_elem_of_cons. split; [done|apply not_elem_of_nil].
      * intros [->|Hin]%elem_of_cons.
        -- apply not_elem_of_cons. split; [done|]. apply IH. by left.
        -- apply IH. by right.
Qed.

Lemma substring_inside (a b : nat) s :
  a ≤ b → b ≤ length s →
  substring (Z.of_nat a) (Z.of_nat b) s = take (b - a) (drop a s).
Proof.
  intros Hab Hb. cbv beta zeta delta [substring].
  replace (Z.min (Z.max (Z.of_nat a) 0) (Z.of_nat (length s)))
    with (Z.of_nat a) by lia.
  replace (Z.min (Z.max (Z.of_nat b) 0) (Z.of_nat (length s)))
    with (Z.of_nat b) by lia.
  replace (Z.min (Z.of_nat a) (Z.of_nat b)) with (Z.of_nat a) by lia.
  replace (Z.max (Z.of_nat a) (Z.of_nat b)) with (Z.of_nat b) by lia.
  replace (Z.to_nat (Z.of_nat b - Z.of_nat a)) with (b - a) by lia.
  by rewrite Nat2Z.id.
Qed.

(** An end index of -1, the answer of a failed [indexOf], turns
    [substring] around: it returns the text before the start index. *)
Lemma substring_to_minus_one (a : nat) s :
  a ≤ length s → substring (Z.of_nat a) (-1) s = take a s.
Proof.
  intros Ha. cbv beta zeta delta [substring].
  replace (Z.min (Z.max (Z.of_nat a) 0) (Z.of_nat (length s)))
    with (Z.of_nat a) by lia.
  replace (Z.min (Z.max (-1) 0) (Z.of_nat (length s))) with 0%Z by lia.
  replace (Z.min (Z.of_nat a) 0) with 0%Z by lia.
  replace (Z.max (Z.of_nat a) 0) with (Z.of_nat a) by lia.
  replace (Z.to_nat (Z.of_nat a - 0)) with a by lia.
  done.
Qed.

Lemma trimStart_clean s : startsClean (trimStart s).
Proof.
  induction s as [|c s IH]; [done|]. simpl.
  by destruct (isTrimmed c) eqn:Hc.
Qed.

Lemma trimStart_fixed s : startsClean s → trimStart s = s.
Proof. destruct s as [|c s]; [done|]. simpl. by intros ->. Qed.

Lemma trimStart_suffix s : trimStart s `suffix_of` s.
Proof.
  induction s as [|c s IH]; [done|]. simpl.
  destruct (isTrimmed c); [by apply suffix_cons_r|done].
Qed.

Lemma trimEnd_prefix s : trimEnd s `prefix_of` s.
Proof.
  pose proof (trimStart_suffix (reverse s)) as Hsuf.
  apply suffix_prefix_reverse in Hsuf. by rewrite reverse_involutive in Hsuf.
Qed.

Lemma startsClean_prefix l s : startsClean s → l `prefix_of` s → startsClean l.
Proof. intros Hs [k ->]. by destruct l. Qed.

Lemma trim_idemp s : trim (trim s) = trim s.
Proof.
  assert (startsClean (trim s)) as Hstart.
  { eapply startsClean_prefix; [apply (trimStart_clean s)|apply trimEnd_prefix]. }
  assert (startsClean (reverse (trim s))) as Hend.
  { unfold trim, trimEnd. rewrite reverse_involutive. apply trimStart_clean. }
  unfold trim at 1. rewrite (trimStart_fixed _ Hstart).
  unfold trimEnd. by rewrite (trimStart_fixed _ Hend), reverse_involutive.
Qed.

End Strings.

(** ** Reading the file as a data URL *)

Ltac decide_closed := apply (bool_decide_unpack _); vm_compute; exact I.

Lemma substring_minus_one_any (a : nat) (s : jsstring) :
  substring (Z.of_nat a) (-1) s = take a s.
Proof.
  destruct (decide (a ≤ length s)) as [Hle|Hgt].
  - by apply substring_to_minus_one.
  - cbv beta zeta delta [substring].
    replace (Z.min (Z.max (Z.of_nat a) 0) (Z.of_nat (length s)))
      with (Z.of_nat (length s)) by lia.
    replace (Z.min (Z.max (-1) 0) (Z.of_nat (length s))) with 0%Z by lia.
    replace (Z.min (Z.of_nat (length s)) 0) with 0%Z by lia.
    replace (Z.max (Z.of_nat (length s)) 0) with (Z.of_nat (length s)) by lia.
    replace (Z.to_nat (Z.of_nat (length s) - 0)) with (length s) by lia.
    rewrite drop_0, take_ge by lia. by rewrite take_ge by lia.
Qed.

Lemma substring_middle (pre mid post : jsstring) :
  substring (Z.of_nat (length pre)) (Z.of_nat (length (pre ++ mid)))
            (pre ++ mid ++ post)
  = mid.
Proof.
  rewrite substring_inside; rewrite ?length_app; [|lia..].
  rewrite drop_app_length.
  replace (length pre + length mid - length pre) with (length mid) by lia.
  apply take_app_length.
Qed.

(** X1. [convertFileToBase64] undoes the framing of a data URL: from
    [data:<type>;base64,<payload>], where the type holds no semicolon or
    comma and the payload no comma, it gets back exactly the type and the
    payload. *)
Theorem decodeDataURL_roundtrip (mimeType base64 : jsstring) :
  59%N ∉ mimeType → 44%N ∉ mimeType → 44%N ∉ base64 →
  decodeDataURL (lit "data:" ++ mimeType ++ lit ";base64," ++ base64)
  = (Some base64, mimeType).
Proof.
  intros Hsemi Hcomma Hpayload. unfold decodeDataURL. f_equal.
  - change (lit ";base64," ++ base64) with (lit ";base64" ++ 44%N :: base64).
    rewrite !(assoc_L (++)), split_app, split_notin; [done..|].
    rewrite !not_elem_of_app. split_and!; [decide_closed|done|decide_closed].
  - change (lit ";base64," ++ base64) with (59%N :: lit "base64," ++ base64).
    rewrite (assoc_L (++)), indexOf_app
      by (rewrite not_elem_of_app; split; [decide_closed|done]).
    change 5%Z with (Z.of_nat (length (lit "data:"))).
    rewrite <-(assoc_L (++)). apply substring_middle.
Qed.

Lemma decodeDataURL_roundtrip_witness :
  decodeDataURL (lit "data:" ++ lit "image/png" ++ lit ";base64," ++ lit "iVBORw0KGgo=")
  = (Some (lit "iVBORw0KGgo="), lit "image/png").
Proof.
  apply (decodeDataURL_roundtrip (lit "image/png") (lit "iVBORw0KGgo="));
    decide_closed.
Defined.

(** X2. [convertFileToBase64] never fails on what the reader produced: when
    the text has no semicolon the media type it reports is the first five
    characters of the text (the failed [indexOf] turns [substring] around),
    and when it has no comma the payload is undefined. *)
Theorem decodeDataURL_unframed (result : jsstring) :
  (59%N ∉ result → snd (decodeDataURL result) = take 5 result)
  ∧ (44%N ∉ result → fst (decodeDataURL result) = None).
Proof.
  unfold decodeDataURL. simpl. split.
  - intros Hsemi. rewrite indexOf_notin by done.
    apply (substring_minus_one_any 5).
  - intros Hcomma. by rewrite split_notin.
Qed.

Lemma decodeDataURL_unframed_witness :
  decodeDataURL (lit "blob:abc") = (None, lit "blob:").
Proof.
  pose proof (decodeDataURL_unframed (lit "blob:abc")) as [Hmime Hpayload].
  rewrite (surjective_pairing (decodeDataURL (lit "blob:abc"))).
  rewrite Hmime, Hpayload; [reflexivity|decide_closed..].
Defined.

(** ** The suggested file name *)

Lemma orElse_free (c : code_unit) (a : option jsstring) (b : jsstring) :
  (∀ s, a = Some s → c ∉ s) → c ∉ b → b ≠ [] →
  orElse a b ≠ [] ∧ c ∉ orElse a b.
Proof.
  intros Ha Hb Hne. unfold orElse. destruct a as [[|x s]|]; simpl; [done| |done].
  split; [done|]. by apply Ha.
Qed.

(** X3. Whatever URL is saved, the suggested file name is
    [edited-image-by-banana-ai.] followed by an extension that is not empty
    and holds no slash. *)
Theorem downloadName_shape (url : jsstring) :
  ∃ extension,
    downloadName url = lit "edited-image-by-banana-ai." ++ extension
    ∧ extension ≠ []
    ∧ 47%N ∉ extension.
Proof.
  unfold downloadName. eexists. split; [reflexivity|].
  apply orElse_free; [|decide_closed|done].
  intros s Hs%list_elem_of_lookup_2. by eapply split_free.
Qed.

(** X4. For a data URL [data:<type>/<subtype>;...] the extension is the
    subtype, whatever follows the semicolon. *)
Theorem downloadName_data_url (type subtype rest : jsstring) :
  59%N ∉ type → 47%N ∉ type → 59%N ∉ subtype → 47%N ∉ subtype →
  subtype ≠ [] →
  downloadName (lit "data:" ++ type ++ 47%N :: subtype ++ 59%N :: rest)
  = lit "edited-image-by-banana-ai." ++ subtype.
Proof.
  intros Hts Htl Hss Hsl Hne. unfold downloadName.
  change (lit "data:" ++ type ++ 47%N :: subtype ++ 59%N :: rest)
    with (lit "data" ++ 58%N :: (type ++ 47%N :: subtype ++ 59%N :: rest)) at 1.
  rewrite indexOf_app by decide_closed.
  replace (lit "data:" ++ type ++ 47%N :: subtype ++ 59%N :: rest)
    with ((lit "data:" ++ type ++ 47%N :: subtype) ++ 59%N :: rest)
    by (by rewrite <-!(assoc_L (++))).
  rewrite indexOf_app.
  2:{ rewrite !not_elem_of_app, not_elem_of_cons.
      split_and!; [decide_closed|done|done|done]. }
  change (Z.of_nat (length (lit "data")) + 1)%Z
    with (Z.of_nat (length (lit "data:"))).
  replace ((lit "data:" ++ type ++ 47%N :: subtype) ++ 59%N :: rest)
    with (lit "data:" ++ (type ++ 47%N :: subtype) ++ 59%N :: rest)
    by (by rewrite <-!(assoc_L (++))).
  replace (lit "data:" ++ type ++ 47%N :: subtype)
    with (lit "data:" ++ (type ++ 47%N :: subtype)) by done.
  rewrite substring_middle, split_app, split_notin by done.
  by destruct subtype.
Qed.

Lemma downloadName_data_url_witness :
  downloadName (lit "data:image/jpeg;base64,/9j/4AAQ")
  = lit "edited-image-by-banana-ai.jpeg".
Proof.
  apply (downloadName_data_url (lit "image") (lit "jpeg") (lit "base64,/9j/4AAQ"));
    decide_closed.
Defined.

(** X5. A URL with a scheme and no semicolon, such as an address or an
    object URL, is saved under the extension [png], whatever the image is:
    the failed search for the semicolon leaves only the scheme to look in. *)
Theorem downloadName_no_semicolon (scheme rest : jsstring) :
  58%N ∉ scheme → 47%N ∉ scheme → 59%N ∉ scheme → 59%N ∉ rest →
  downloadName (scheme ++ 58%N :: rest) = lit "edited-image-by-banana-ai.png".
Proof.
  intros Hcolon Hslash Hsemi Hrest. unfold downloadName.
  rewrite indexOf_app by done.
  rewrite (indexOf_notin 59%N).
  2:{ rewrite not_elem_of_app, not_elem_of_cons. split_and!; done. }
  replace (Z.of_nat (length scheme) + 1)%Z with (Z.of_nat (S (length scheme)))
    by lia.
  rewrite substring_minus_one_any.
  replace (scheme ++ 58%N :: rest) with ((scheme ++ [58%N]) ++ rest)
    by (by rewrite <-(assoc_L (++))).
  rewrite take_app_length' by (rewrite length_app; simpl; lia).
  rewrite split_notin; [done|].
  rewrite not_elem_of_app, list_elem_of_singleton. split; [done|discriminate].
Qed.

Lemma downloadName_no_semicolon_witness :
  downloadName (lit "https://cdn.example/out/result.webp")
  = lit "edited-image-by-banana-ai.png".
Proof.
  apply (downloadName_no_semicolon (lit "https") (lit "//cdn.example/out/result.webp"));
    decide_closed.
Defined.

(** ** Submission, from the click to the result *)

Lemma handleSubmit_started (w : World) (file : File) :
  originalImage (app w) = Some file →
  truthy (trim (prompt (app w))) = true →
  handleSubmit w
  = startSubmission file (prompt (app w))
      (onApp (λ s, setPromptHistory (recordPrompt (trim (prompt (app w))))
                     (setEditedResult None (setError None (setIsLoading true s))))
             w).
Proof. intros Himg Ht. unfold handleSubmit. by rewrite Himg, Ht. Qed.

(** X6. [handleSubmit] turns a submit down, setting the validation message
    and nothing else, exactly when the image is missing or the prompt is
    blank; a missing image is turned down even with a good prompt. In every
    other state exactly one submission starts, for the image and the prompt
    of that state. *)
Theorem handleSubmit_validates_exactly (w : World) :
  (handleSubmit w = onApp (setError (Some validationMessage)) w
   ↔ originalImage (app w) = None ∨ truthy (trim (prompt (app w))) = false)
  ∧ (submissions (handleSubmit w) = submissions w
     ↔ originalImage (app w) = None ∨ truthy (trim (prompt (app w))) = false)
  ∧ (∀ file, originalImage (app w) = Some file →
             truthy (trim (prompt (app w))) = true →
             submissions (handleSubmit w)
             = submissions w ++ [mkSubmission file (prompt (app w))]).
Proof.
  assert (∀ l (x : Submission), l ++ [x] ≠ l) as Hgrow.
  { intros l x Heq. apply (f_equal length) in Heq.
    rewrite length_app in Heq. simpl in Heq. lia. }
  destruct (originalImage (app w)) as [file|] eqn:Himg;
    destruct (truthy (trim (prompt (app w)))) eqn:Ht.
  - pose proof (handleSubmit_started w file Himg Ht) as Hstart.
    assert (submissions (handleSubmit w)
            = submissions w ++ [mkSubmission file (prompt (app w))]) as Hsubs
      by (by rewrite Hstart).
    split_and!; [split|split|].
    + intros Heq. apply (f_equal submissions) in Heq. rewrite Hsubs in Heq.
      by apply Hgrow in Heq.
    + by intros [?|?].
    + rewrite Hsubs. by intros ?%Hgrow.
    + by intros [?|?].
    + by intros ? [= <-] _.
  - unfold handleSubmit. rewrite Himg, Ht.
    split_and!; [split; [by right|done]|split; [by right|done]|done].
  - unfold handleSubmit. rewrite Himg.
    split_and!; [split; [by left|done]|split; [by left|done]|done].
  - unfold handleSubmit. rewrite Himg.
    split_and!; [split; [by left|done]|split; [by left|done]|done].
Qed.

Lemma handleSubmit_validates_exactly_witness :
  handleSubmit (typePrompt (lit "add hat") initialWorld)
  = onApp (setError (Some validationMessage)) (typePrompt (lit "add hat") initialWorld)
  ∧ submissions (handleSubmit Sample.typed)
    = [mkSubmission Sample.catPng (lit "  add hat ")].
Proof.
  pose proof (handleSubmit_validates_exactly (typePrompt (lit "add hat") initialWorld))
    as ([_ Hreject] & _ & _).
  pose proof (handleSubmit_validates_exactly Sample.typed) as (_ & _ & Hstart).
  split.
  - exact (Hreject (or_introl eq_refl)).
  - exact (Hstart Sample.catPng eq_refl eq_refl).
Defined.

(** The message a failed submission leaves in [error]. *)
Lemma handleSubmit_resume_error (o : Outcome) (w : World) :
  error (app (handleSubmit_resume o w))
  = match o with
    | Resolved _ => error (app w)
    | Rejected (ThrownError message) => Some message
    | Rejected ThrownOther => Some unexpectedMessage
    end.
Proof. by destruct o as [?|[?|]]. Qed.

(** X7. A submission that starts and then completes, with nothing in
    between, ends with the loading flag off and with either the result of the
    service and no error, or an error message and no result: the result of an
    earlier submission is gone even when this one failed. The image, its
    preview and the prompt text are kept, and the ledger holds the trimmed
    prompt in front. The banner shows the error message unless that message is
    empty, in which case the failure leaves nothing on the page. *)
Theorem submit_then_complete (w : World) (file : File) (o : Outcome) :
  originalImage (app w) = Some file →
  truthy (trim (prompt (app w))) = true →
  let w' := handleSubmit_resume o (handleSubmit w) in
  isLoading (app w') = false
  ∧ editedResult (app w')
    = match o with Resolved result => Some result | Rejected _ => None end
  ∧ error (app w')
    = match o with
      | Resolved _ => None
      | Rejected (ThrownError message) => Some message
      | Rejected ThrownOther => Some unexpectedMessage
      end
  ∧ errorBanner (app w')
    = match o with
      | Resolved _ => None
      | Rejected (ThrownError message) =>
          if truthy message then Some message else None
      | Rejected ThrownOther => Some unexpectedMessage
      end
  ∧ originalImage (app w') = Some file
  ∧ originalImagePreview (app w') = originalImagePreview (app w)
  ∧ prompt (app w') = prompt (app w)
  ∧ head (promptHistory (app w')) = Some (trim (prompt (app w)))
  ∧ blobStore w' = blobStore w
  ∧ downloads w' = downloads w.
Proof.
  intros Himg Ht w'. unfold w'. rewrite (handleSubmit_started w file Himg Ht).
  destruct o as [result|[message|]]; simpl; rewrite ?Himg;
    split_and!; try reflexivity.
  - unfold errorBanner. simpl. destruct (truthy message); [|done].
    by destruct (formRendered _).
  - unfold errorBanner. simpl. by destruct (formRendered _).
Qed.

Lemma submit_then_complete_witness :
  let w' := handleSubmit_resume (Rejected (ThrownError [])) (handleSubmit Sample.typed) in
  editedResult (app w') = None ∧ errorBanner (app w') = None
  ∧ isLoading (app w') = false.
Proof.
  pose proof (submit_then_complete Sample.typed Sample.catPng
                (Rejected (ThrownError [])) eq_refl eq_refl)
    as (Hload & Hres & _ & Hbanner & _).
  split_and!; [exact Hres | exact Hbanner | exact Hload].
Defined.

(** X8. What the Edited panel shows is what gets saved: once a result with a
    non-empty image URL has arrived on the form page, the panel shows that
    URL, the Download button passes on that URL, and requesting the download
    and closing the modal saves that URL, once, under the name derived from
    it. *)
Theorem shown_image_is_saved (w : World) (r : EditImageResult) (url : jsstring) :
  formRendered (app w) = true →
  imageUrl r = Some url →
  truthy url = true →
  let shown := handleSubmit_resume (Resolved r) w in
  editedPanel (app shown) = Some (ShowImage url)
  ∧ downloadButton (app shown) = Some url
  ∧ downloads (clickDownload shown) = downloads w
  ∧ downloads (handleAdModalClose (clickDownload shown))
    = downloads w ++ [mkDownload url (downloadName url)]
  ∧ imageToDownload (app (handleAdModalClose (clickDownload shown))) = None.
Proof.
  intros Hform Hurl Ht shown.
  assert (formRendered (app shown) = true) as Hform' by exact Hform.
  assert (downloadButton (app shown) = Some url) as Hbutton.
  { unfold downloadButton. rewrite Hform'. simpl. by rewrite Hurl, Ht. }
  split_and!; [|exact Hbutton|..].
  - unfold editedPanel. rewrite Hform'. simpl. by rewrite Hurl, Ht.
  - unfold clickDownload, handleDownloadRequest. by rewrite Hbutton, Ht.
  - unfold clickDownload, handleDownloadRequest, handleAdModalClose, startDownload.
    rewrite Hbutton, Ht. simpl. by rewrite Ht.
  - unfold clickDownload, handleDownloadRequest, handleAdModalClose, startDownload.
    rewrite Hbutton, Ht. simpl. by rewrite Ht.
Qed.

Lemma shown_image_is_saved_witness :
  downloads (handleAdModalClose
               (clickDownload (handleSubmit_resume (Resolved Sample.R1) Sample.inFlight)))
  = [mkDownload Sample.pngUrl (lit "edited-image-by-banana-ai.png")].
Proof.
  pose proof (shown_image_is_saved Sample.inFlight Sample.R1 Sample.pngUrl
                eq_refl eq_refl eq_refl) as (_ & _ & _ & Hsaved & _).
  exact Hsaved.
Defined.

(** X9. A full reset puts every cell back to its initial value except the
    two of the download gate, and a new upload leaves those two alone as
    well: a download that was pending is still saved when the modal closes
    afterwards. *)
Theorem pending_download_survives (w : World) (url : jsstring) (file : File) :
  imageToDownload (app w) = Some url →
  truthy url = true →
  app (resetState w)
  = setImageToDownload (Some url)
      (setIsAdModalOpen (isAdModalOpen (app w)) initialApp)
  ∧ downloads (handleAdModalClose (resetState w))
    = downloads w ++ [mkDownload url (downloadName url)]
  ∧ downloads (handleAdModalClose (handleImageUpload file w))
    = downloads w ++ [mkDownload url (downloadName url)].
Proof.
  intros Hpending Ht.
  assert (∀ w', imageToDownload (app w') = Some url →
                downloads (handleAdModalClose w')
                = downloads w' ++ [mkDownload url (downloadName url)]) as Hclose.
  { intros w' Hw'. unfold handleAdModalClose, startDownload.
    change (imageToDownload (app (onApp (setIsAdModalOpen false) w')))
      with (imageToDownload (app w')).
    by rewrite Hw', Ht. }
  split_and!.
  - by rewrite <-Hpending.
  - by rewrite Hclose.
  - by rewrite Hclose.
Qed.

Lemma pending_download_survives_witness :
  downloads (handleAdModalClose (resetState Sample.pendingR1))
  = [mkDownload Sample.pngUrl (lit "edited-image-by-banana-ai.png")].
Proof.
  pose proof (pending_download_survives Sample.pendingR1 Sample.pngUrl
                Sample.catPng eq_refl eq_refl) as (_ & Hsaved & _).
  exact Hsaved.
Defined.

(** ** Prompts that come from the page *)

(** X21. When the prompt has no blank at either end, the instruction that
    a started submission sends to the service is the very string the ledger
    records in front. *)
Theorem trimmed_instruction_matches (w : World) (file : File) (dataURL : jsstring) :
  originalImage (app w) = Some file →
  trimmedNonBlank (prompt (app w)) →
  ∃ sub,
    last (submissions (handleSubmit w)) = Some sub
    ∧ head (promptHistory (app (handleSubmit w)))
      = Some (call_instruction (serviceCall sub dataURL)).
Proof.
  intros Himg [Htrim Ht].
  assert (truthy (trim (prompt (app w))) = true) as Ht' by (by rewrite Htrim).
  exists (mkSubmission file (prompt (app w))).
  rewrite (handleSubmit_started w file Himg Ht'). simpl.
  split; [apply last_snoc|].
  unfold serviceCall. destruct (decodeDataURL dataURL). simpl. by rewrite Htrim.
Qed.

Lemma trimmed_instruction_matches_witness :
  ∃ sub,
    last (submissions
            (handleSubmit (typePrompt (lit "add hat")
                             (handleImageUpload Sample.catPng initialWorld))))
    = Some sub
    ∧ head (promptHistory
              (app (handleSubmit (typePrompt (lit "add hat")
                                    (handleImageUpload Sample.catPng initialWorld)))))
      = Some (call_instruction (serviceCall sub Sample.pngUrl)).
Proof.
  apply (trimmed_instruction_matches
           (typePrompt (lit "add hat") (handleImageUpload Sample.catPng initialWorld))
           Sample.catPng Sample.pngUrl eq_refl).
  split; vm_compute; reflexivity.
Defined.

Lemma examplePrompts_trimmed : Forall trimmedNonBlank examplePrompts.
Proof.
  repeat (apply Forall_cons; split; [split; vm_compute; reflexivity|]).
  apply Forall_nil_2.
Qed.

(** X10. The example button, for every index the random draw can give,
    puts into the prompt the example at that index, a text that is not blank
    and has no blank at either end. So the submit button is enabled unless a
    submission is loading, and a submission of it sends the service the very
    string that the ledger records. *)
Theorem example_prompt_ready
    (randomIndex : nat) (w : World) (file : File) (dataURL : jsstring) :
  randomIndex < length examplePrompts →
  originalImage (app w) = Some file →
  let w' := handleExamplePrompt randomIndex w in
  examplePrompts !! randomIndex = Some (prompt (app w'))
  ∧ trimmedNonBlank (prompt (app w'))
  ∧ submitDisabled (app w') = isLoading (app w)
  ∧ ∃ sub,
      last (submissions (handleSubmit w')) = Some sub
      ∧ sub_file sub = file
      ∧ call_instruction (serviceCall sub dataURL) = prompt (app w')
      ∧ head (promptHistory (app (handleSubmit w'))) = Some (prompt (app w')).
Proof.
  intros Hi Himg w'.
  destruct (lookup_lt_is_Some_2 examplePrompts randomIndex Hi) as [p Hp].
  assert (w' = onApp (setPrompt p) w) as Hw'
    by (unfold w', handleExamplePrompt; by rewrite Hp).
  assert (trimmedNonBlank p) as [Htrim Ht].
  { eapply Forall_forall; [apply examplePrompts_trimmed|].
    by eapply list_elem_of_lookup_2. }
  rewrite Hw'. simpl. split_and!; [done|by split| |].
  - unfold submitDisabled. simpl. rewrite Htrim, Ht. simpl. apply orb_false_r.
  - exists (mkSubmission file p).
    assert (truthy (trim (prompt (app (onApp (setPrompt p) w)))) = true) as Ht'
      by (simpl; by rewrite Htrim).
    rewrite (handleSubmit_started (onApp (setPrompt p) w) file Himg Ht'). simpl.
    split_and!; [apply last_snoc|done| |by rewrite Htrim].
    unfold serviceCall. by destruct (decodeDataURL dataURL).
Qed.

Lemma example_prompt_ready_witness :
  Some (lit "Give the dog a superhero cape.")
  = Some (prompt (app (handleExamplePrompt 7 Sample.typed)))
  ∧ submitDisabled (app (handleExamplePrompt 7 Sample.typed)) = false.
Proof.
  assert (7 < length examplePrompts) as Hi by (vm_compute; lia).
  pose proof (example_prompt_ready 7 Sample.typed Sample.catPng [] Hi eq_refl)
    as (Hat & _ & Hbutton & _).
  split; [exact Hat|exact Hbutton].
Defined.

Lemma move_to_front_Permutation (p : jsstring) (h : list jsstring) :
  NoDup h → p ∈ h → p :: filter (λ q, q ≠ p) h ≡ₚ h.
Proof.
  induction h as [|a h IH]; intros Hnd Hin; [by apply elem_of_nil in Hin|].
  apply NoDup_cons in Hnd as [Ha Hnd].
  destruct (decide (a = p)) as [->|Hne].
  - rewrite filter_cons_False by (intros Hq; by apply Hq).
    by rewrite filter_ne_fresh.
  - rewrite filter_cons_True by done.
    apply elem_of_cons in Hin as [->|Hin]; [done|].
    rewrite Permutation_swap. by rewrite IH.
Qed.

(** X11. Picking an entry of the ledger and submitting it again moves that
    entry to the front and changes nothing else: the ledger afterwards is the
    entry followed by the other entries in their old order, a rearrangement
    of the old ledger of the same length, and the service is sent the entry
    as it stands in the ledger. *)
Theorem history_pick_moves_to_front
    (w : World) (file : File) (selectedPrompt : jsstring) :
  originalImage (app w) = Some file →
  ledgerOk (promptHistory (app w)) →
  selectedPrompt ∈ promptHistory (app w) →
  let h := promptHistory (app w) in
  let w' := handleSubmit (handleSelectPromptFromHistory selectedPrompt w) in
  promptHistory (app w') = selectedPrompt :: filter (λ q, q ≠ selectedPrompt) h
  ∧ promptHistory (app w') ≡ₚ h
  ∧ length (promptHistory (app w')) = length h
  ∧ last (submissions w') = Some (mkSubmission file selectedPrompt).
Proof.
  intros Himg (Hlen & Hnd & Hall) Hin h w'.
  assert (trimmedNonBlank selectedPrompt) as [Htrim Ht]
    by (by eapply Forall_forall).
  assert (truthy (trim (prompt (app (handleSelectPromptFromHistory selectedPrompt w))))
          = true) as Ht' by (simpl; by rewrite Htrim).
  pose proof (move_to_front_Permutation selectedPrompt h Hnd Hin) as Hperm.
  assert (promptHistory (app w')
          = selectedPrompt :: filter (λ q, q ≠ selectedPrompt) h) as Hhist.
  { unfold w'.
    rewrite (handleSubmit_ledger
               (handleSelectPromptFromHistory selectedPrompt w) file Himg).
    change (prompt (app (handleSelectPromptFromHistory selectedPrompt w)))
      with selectedPrompt.
    change (promptHistory (app (handleSelectPromptFromHistory selectedPrompt w)))
      with h.
    unfold record. rewrite Htrim, Ht. unfold recordPrompt. apply take_ge.
    apply Permutation_length in Hperm. fold h in Hlen. simpl in *. lia. }
  rewrite Hhist. split_and!; [done|done|by apply Permutation_length|].
  unfold w'.
  rewrite (handleSubmit_started (handleSelectPromptFromHistory selectedPrompt w)
             file Himg Ht').
  apply last_snoc.
Qed.

Lemma history_pick_moves_to_front_witness :
  let w := onApp (setPromptHistory (λ _, [lit "grow"; lit "add hat"; lit "blur"]))
                 Sample.typed in
  promptHistory (app (handleSubmit (handleSelectPromptFromHistory (lit "blur") w)))
  = [lit "blur"; lit "grow"; lit "add hat"].
Proof.
  intros w.
  assert (ledgerOk (promptHistory (app w))) as Hok.
  { split_and!; [vm_compute; lia|decide_closed|].
    repeat (apply Forall_cons; split; [split; vm_compute; reflexivity|]).
    apply Forall_nil_2. }
  assert (lit "blur" ∈ promptHistory (app w)) as Hin by decide_closed.
  pose proof (history_pick_moves_to_front w Sample.catPng (lit "blur")
                eq_refl Hok Hin) as (Hfront & _).
  exact Hfront.
Defined.

(** ** A loaded example *)

Lemma split_app_any (c : code_unit) (l r : jsstring) :
  ∃ segs, segs ≠ [] ∧ split c (l ++ c :: r) = segs ++ split c r.
Proof.
  induction l as [|x l (segs & Hne & IH)]; simpl.
  - exists [[]]. by rewrite N.eqb_refl.
  - rewrite IH. destruct (x =? c)%N.
    + by exists ([] :: segs).
    + destruct segs as [|seg segs]; [done|]. by exists ((x :: seg) :: segs).
Qed.

Lemma last_split (c : code_unit) (l name : jsstring) :
  c ∉ name → last (split c (l ++ c :: name)) = Some name.
Proof.
  intros Hname. destruct (split_app_any c l name) as (segs & _ & ->).
  rewrite split_notin by done. apply last_snoc.
Qed.

(** X12. A loaded example becomes the image: the file carries the fetched
    bytes and type, and a name that is never empty and holds no slash, the
    text after the last slash of the address when there is some and
    [example.jpg] otherwise. Its preview is a newly minted object URL
    registered for it, the prompt is the example's, result and error are
    cleared, and the ledger is as it was. *)
Theorem example_loaded
    (imageUrl examplePrompt blobType : jsstring) (bytes : list N) (w : World) :
  let w' := handleExampleSelect imageUrl examplePrompt
              (FetchedBlob blobType bytes) w in
  ∃ filename,
    originalImage (app w') = Some (mkFile filename blobType bytes)
    ∧ filename ≠ []
    ∧ (47%N ∉ filename)
    ∧ (∀ dir name, imageUrl = dir ++ (47%N :: name) → 47%N ∉ name →
         filename = if truthy name then name else lit "example.jpg")
    ∧ originalImagePreview (app w') = Some (blobCounter w)
    ∧ blobStore w' !! blobCounter w = Some (mkFile filename blobType bytes)
    ∧ prompt (app w') = examplePrompt
    ∧ editedResult (app w') = None
    ∧ error (app w') = None
    ∧ promptHistory (app w') = promptHistory (app w).
Proof.
  intros w'. eexists.
  split; [reflexivity|].
  assert (orElse (last (split 47%N imageUrl)) (lit "example.jpg") ≠ []
          ∧ 47%N ∉ orElse (last (split 47%N imageUrl)) (lit "example.jpg"))
    as [Hne Hfree].
  { apply orElse_free; [|decide_closed|done].
    intros s Hs%last_Some_elem_of. by eapply split_free. }
  split_and!; [exact Hne|exact Hfree| |reflexivity|apply lookup_insert_eq
               |reflexivity..].
  intros dir name -> Hname. rewrite last_split by done.
  unfold orElse. by destruct name.
Qed.

Lemma example_loaded_witness :
  ∃ filename,
    originalImage
      (app (handleExampleSelect (lit "/examples/cat.jpg") (lit "Add a hat.")
              (FetchedBlob (lit "image/jpeg") [255; 216]%N) initialWorld))
    = Some (mkFile filename (lit "image/jpeg") [255; 216]%N)
    ∧ filename = lit "cat.jpg".
Proof.
  destruct (example_loaded (lit "/examples/cat.jpg") (lit "Add a hat.")
              (lit "image/jpeg") [255; 216]%N initialWorld)
    as (filename & Himg & _ & _ & Hname & _).
  exists filename. split; [exact Himg|].
  apply (Hname (lit "/examples") (lit "cat.jpg")); [reflexivity|decide_closed].
Defined.

(** ** What every run keeps *)

Section Runs.

Implicit Types (w : World) (e : Event) (events : list Event).

Lemma run_snoc events e w : run (events ++ [e]) w = step (run events w) e.
Proof. unfold run. by rewrite foldl_app. Qed.

(** The handlers as seen from one cell: which of them leave it alone. *)
Ltac handler_cases w :=
  unfold handleSubmit, handleSubmit_resume, handleDownloadRequest,
    handleAdModalClose, startDownload, handleExamplePrompt,
    handleExampleSelect_resume, handleExampleSelect_begin, typePrompt,
    handleSelectPromptFromHistory, handleImageUpload, resetState;
  repeat match goal with
    | |- context [match ?x with _ => _ end] =>
        lazymatch x with
        | originalImage _ => destruct x eqn:?
        | imageToDownload _ => destruct x eqn:?
        | truthy _ => destruct x eqn:?
        | negb (truthy _) => destruct x eqn:?
        | examplePrompts !! _ => destruct x eqn:?
        end
    | o : Outcome |- _ => destruct o as [?|[?|]]
    | o : FetchOutcome |- _ => destruct o
    end.

Lemma assetOk_same w w' :
  originalImage (app w') = originalImage (app w) →
  originalImagePreview (app w') = originalImagePreview (app w) →
  blobStore w' = blobStore w →
  assetOk w → assetOk w'.
Proof. unfold assetOk. by intros -> -> ->. Qed.

Lemma handleImageUpload_assetOk file w : assetOk (handleImageUpload file w).
Proof. unfold assetOk. simpl. apply lookup_insert_eq. Qed.

Lemma step_assetOk w e : assetOk w → assetOk (step w e).
Proof.
  intros Hok. destruct e as [file| |url p o| |v|i|p| |o|url|]; simpl.
  - apply handleImageUpload_assetOk.
  - by eapply assetOk_same.
  - destruct o; try (by eapply assetOk_same).
    unfold handleExampleSelect_resume. eapply assetOk_same;
      [| | |apply (handleImageUpload_assetOk
                     (mkFile (orElse (last (split 47%N url)) (lit "example.jpg"))
                             blobType bytes) w)]; reflexivity.
  - done.
  - by eapply assetOk_same.
  - eapply assetOk_same; [..|exact Hok]; handler_cases w; simpl; congruence.
  - by eapply assetOk_same.
  - eapply assetOk_same; [..|exact Hok]; handler_cases w; simpl; congruence.
  - eapply assetOk_same; [..|exact Hok]; handler_cases w; simpl; congruence.
  - eapply assetOk_same; [..|exact Hok]; handler_cases w; simpl; congruence.
  - eapply assetOk_same; [..|exact Hok]; handler_cases w; simpl; congruence.
Qed.

Lemma step_gateOk w e : gateOk (app w) → gateOk (app (step w e)).
Proof.
  unfold gateOk. intros Hok.
  destruct e as [file| |url p o| |v|i|p| |o|url|]; simpl;
    try exact Hok.
  - by destruct o.
  - unfold handleExamplePrompt. by destruct (examplePrompts !! i).
  - unfold handleSubmit.
    destruct (originalImage (app w)); [destruct (truthy _)|]; exact Hok.
  - by destruct o as [?|[?|]].
  - unfold handleDownloadRequest. destruct (truthy url) eqn:Hurl; simpl; done.
  - unfold handleAdModalClose, startDownload. simpl.
    destruct (imageToDownload (app w)) as [pending|] eqn:Hpending; simpl.
    + destruct Hok as [-> _]. simpl. by rewrite ?Hpending.
    + by rewrite Hpending.
Qed.

Lemma recordPrompt_ledgerOk (t : jsstring) (h : list jsstring) :
  trimmedNonBlank t → ledgerOk h → ledgerOk (recordPrompt t h).
Proof.
  intros Ht (Hlen & Hnd & Hall). split_and!.
  - apply recordPrompt_length.
  - by apply recordPrompt_NoDup.
  - rewrite recordPrompt_cons. apply Forall_cons. split; [done|].
    apply Forall_take, Forall_forall. intros q [_ Hq]%list_elem_of_filter.
    by eapply Forall_forall.
Qed.

Lemma step_ledgerOk w e :
  ledgerOk (promptHistory (app w)) → ledgerOk (promptHistory (app (step w e))).
Proof.
  intros Hok. destruct e as [file| |url p o| |v|i|p| |o|url|]; simpl;
    try exact Hok.
  - by destruct o.
  - split_and!; [simpl; lia|constructor|constructor].
  - unfold handleExamplePrompt. by destruct (examplePrompts !! i).
  - unfold handleSubmit.
    destruct (originalImage (app w)); [|exact Hok].
    destruct (truthy (trim (prompt (app w)))) eqn:Ht; [|exact Hok]. simpl.
    apply recordPrompt_ledgerOk; [|exact Hok].
    split; [apply trim_idemp|exact Ht].
  - by destruct o as [?|[?|]].
  - unfold handleDownloadRequest. by destruct (truthy url).
  - unfold handleAdModalClose, startDownload. simpl.
    destruct (imageToDownload (app w)) as [pending|]; [|exact Hok].
    by destruct (truthy pending).
Qed.

Lemma step_submissions w e :
  Forall (λ sub, truthy (trim (sub_prompt sub)) = true) (submissions w) →
  Forall (λ sub, truthy (trim (sub_prompt sub)) = true) (submissions (step w e)).
Proof.
  intros Hok. destruct e as [file| |url p o| |v|i|p| |o|url|]; simpl;
    try exact Hok.
  - by destruct o.
  - unfold handleExamplePrompt. by destruct (examplePrompts !! i).
  - unfold handleSubmit.
    destruct (originalImage (app w)); [|exact Hok].
    destruct (truthy (trim (prompt (app w)))) eqn:Ht; [|exact Hok]. simpl.
    apply Forall_app. split; [exact Hok|]. by apply Forall_singleton.
  - by destruct o as [?|[?|]].
  - unfold handleDownloadRequest. by destruct (truthy url).
  - unfold handleAdModalClose, startDownload. simpl.
    destruct (imageToDownload (app w)) as [pending|]; [|exact Hok].
    by destruct (truthy pending).
Qed.

Ltac counts w :=
  unfold pendingCount; simpl; split_and!;
  first [done | lia | destruct (imageToDownload (app w)); simpl; lia].

Lemma step_downloads w e :
  length (downloads (step w e))
  ≤ length (downloads w) + (if isClose e then 1 else 0)
  ∧ length (downloads (step w e)) + pendingCount (app (step w e))
    ≤ length (downloads w) + pendingCount (app w)
      + (if isRequest e then 1 else 0)
  ∧ (Forall savedOk (downloads w) → Forall savedOk (downloads (step w e))).
Proof.
  destruct e as [file| |url p o| |v|i|p| |o|url|]; simpl.
  - unfold handleImageUpload, createObjectURL. counts w.
  - counts w.
  - destruct o;
      unfold handleExampleSelect_resume, handleImageUpload, createObjectURL;
      counts w.
  - unfold resetState. counts w.
  - counts w.
  - unfold handleExamplePrompt. destruct (examplePrompts !! i); counts w.
  - counts w.
  - unfold handleSubmit.
    destruct (originalImage (app w)); [destruct (truthy _)|]; counts w.
  - destruct o as [?|[?|]]; counts w.
  - unfold handleDownloadRequest. destruct (truthy url); counts w.
  - unfold handleAdModalClose, startDownload. simpl.
    destruct (imageToDownload (app w)) as [pending|] eqn:Hpending; simpl.
    + destruct (truthy pending) eqn:Ht; unfold pendingCount; simpl;
        rewrite ?Hpending, ?length_app; simpl; split_and!; try lia; try done.
      intros Hall. apply Forall_app. split; [done|].
      apply Forall_singleton. by split.
    + unfold pendingCount. simpl. rewrite Hpending. split_and!; (lia || done).
Qed.

Lemma closes_snoc events e :
  closes (events ++ [e]) = closes events + (if isClose e then 1 else 0).
Proof.
  unfold closes. rewrite filter_app, length_app. f_equal.
  by destruct e.
Qed.

Lemma requests_snoc events e :
  requests (events ++ [e]) = requests events + (if isRequest e then 1 else 0).
Proof.
  unfold requests. rewrite filter_app, length_app. f_equal.
  rewrite filter_cons. destruct (isRequest e); by case_decide.
Qed.

End Runs.

Lemma run_assetOk (events : list Event) : assetOk (run events initialWorld).
Proof.
  induction events as [|e events IH] using rev_ind; [done|].
  rewrite run_snoc. by apply step_assetOk.
Qed.

(** X13. In every run of the handlers from the initial state, the image and
    its preview are set and cleared together, and the preview is the object
    URL under which the browser holds the current image. *)
Theorem run_image_and_preview (events : list Event) :
  let w := run events initialWorld in
  (is_Some (originalImage (app w)) ↔ is_Some (originalImagePreview (app w)))
  ∧ (∀ file url,
       originalImage (app w) = Some file →
       originalImagePreview (app w) = Some url →
       blobStore w !! url = Some file).
Proof.
  intros w. pose proof (run_assetOk events) as Hok. fold w in Hok.
  unfold assetOk in Hok.
  destruct (originalImage (app w)) as [file|],
    (originalImagePreview (app w)) as [url|]; try done.
  split; [done|]. by intros ? ? [= <-] [= <-].
Qed.

(** X14. In every run the modal is open exactly while a download is
    pending, and a pending download is never the empty URL. *)
Theorem run_gate (events : list Event) :
  let s := app (run events initialWorld) in
  (isAdModalOpen s = true ↔ is_Some (imageToDownload s))
  ∧ (∀ url, imageToDownload s = Some url → truthy url = true).
Proof.
  intros s.
  assert (gateOk s) as Hok.
  { unfold s. induction events as [|e events IH] using rev_ind; [done|].
    rewrite run_snoc. by apply step_gateOk. }
  unfold gateOk in Hok. destruct (imageToDownload s) as [pending|].
  - destruct Hok as [Ht Hopen]. split; [done|]. by intros ? [= <-].
  - rewrite Hok. split; [|done]. split; [done|by intros [? ?]].
Qed.

(** X15. In every run, whatever the handlers are called with, the ledger
    holds at most 5 entries, no entry twice, and only texts that are not
    empty and have no blank at either end. *)
Theorem run_ledger (events : list Event) :
  let h := promptHistory (app (run events initialWorld)) in
  length h ≤ 5
  ∧ NoDup h
  ∧ (∀ p, p ∈ h → trim p = p ∧ p ≠ []).
Proof.
  intros h.
  assert (ledgerOk h) as (Hlen & Hnd & Hall).
  { unfold h. induction events as [|e events IH] using rev_ind.
    - split_and!; [simpl; lia|constructor|constructor].
    - rewrite run_snoc. by apply step_ledgerOk. }
  split_and!; [done|done|].
  intros p Hp. rewrite Forall_forall in Hall.
  destruct (Hall p Hp) as [Htrim Ht]. split; [done|]. by intros ->.
Qed.

(** X16. In every run, no submission is started on a blank prompt: each
    closure that goes on to call the service holds a prompt whose trim is not
    empty. *)
Theorem run_submissions_not_blank (events : list Event) :
  ∀ sub, sub ∈ submissions (run events initialWorld) →
         trim (sub_prompt sub) ≠ [].
Proof.
  assert (Forall (λ sub, truthy (trim (sub_prompt sub)) = true)
                 (submissions (run events initialWorld))) as Hall.
  { induction events as [|e events IH] using rev_ind; [constructor|].
    rewrite run_snoc. by apply step_submissions. }
  intros sub Hsub. rewrite Forall_forall in Hall.
  specialize (Hall sub Hsub). by destruct (trim (sub_prompt sub)).
Qed.

(** X17. The gate cannot be skipped, in any run: no more files are saved
    than the modal was closed, and, counting the one still pending, no more
    than non-empty releases were requested; asking again while a download is
    pending saves nothing extra. Every file saved has a non-empty address and
    the name derived from it. *)
Theorem run_downloads (events : list Event) :
  let w := run events initialWorld in
  length (downloads w) ≤ closes events
  ∧ length (downloads w) + pendingCount (app w) ≤ requests events
  ∧ (∀ d, d ∈ downloads w →
          href d ≠ [] ∧ download d = downloadName (href d)).
Proof.
  intros w.
  assert (length (downloads w) ≤ closes events
          ∧ length (downloads w) + pendingCount (app w) ≤ requests events
          ∧ Forall savedOk (downloads w)) as (Hcloses & Hrequests & Hall).
  { unfold w. induction events as [|e events IH] using rev_ind.
    - split_and!; [done|done|constructor].
    - rewrite run_snoc, closes_snoc, requests_snoc.
      destruct IH as (IHc & IHr & IHall).
      destruct (step_downloads (run events initialWorld) e) as (Hc & Hr & Hs).
      split_and!; [lia|lia|by apply Hs]. }
  split_and!; [done|done|].
  intros d Hd. rewrite Forall_forall in Hall.
  destruct (Hall d Hd) as [Ht Hname]. split; [|done].
  intros Hempty. by rewrite Hempty in Ht.
Qed.

(** X18. Through the submit button the validation message never appears:
    in every run, a click on the button either does nothing (the form is not
    on the page, a submission is loading, or the prompt is blank) or starts a
    submission for the image and the prompt at hand. *)
Theorem clickSubmit_never_invalid (events : list Event) :
  let w := run events initialWorld in
  clickSubmit w = w
  ∨ ∃ file,
      originalImage (app w) = Some file
      ∧ submissions (clickSubmit w)
        = submissions w ++ [mkSubmission file (prompt (app w))]
      ∧ error (app (clickSubmit w)) = None
      ∧ isLoading (app (clickSubmit w)) = true.
Proof.
  intros w. pose proof (run_assetOk events) as Hok. fold w in Hok.
  unfold clickSubmit, submitDisabled, formRendered, assetOk in *.
  destruct (originalImagePreview (app w)) as [url|]; [|by left].
  destruct (originalImage (app w)) as [file|] eqn:Himg; [|done].
  destruct (isLoading (app w)); [by left|].
  destruct (truthy (trim (prompt (app w)))) eqn:Ht; [|by left].
  right. exists file. simpl. rewrite (handleSubmit_started w file Himg Ht).
  by split_and!.
Qed.

Lemma run_submissions_not_blank_witness :
  trim (lit "  add hat ") ≠ [].
Proof.
  apply (run_submissions_not_blank
           [ImageUploaded Sample.catPng; PromptTyped (lit "  add hat "); Submitted]
           (mkSubmission Sample.catPng (lit "  add hat "))).
  apply list_elem_of_here.
Defined.

(** ** Which handler writes what *)

Ltac open_handlers :=
  unfold handleSubmit, handleSubmit_resume, handleDownloadRequest,
    handleAdModalClose, startDownload, handleExamplePrompt,
    handleExampleSelect_resume, handleExampleSelect_begin, typePrompt,
    handleSelectPromptFromHistory, handleImageUpload, resetState,
    createObjectURL;
  simpl;
  repeat match goal with
    | |- context [match ?x with _ => _ end] =>
        lazymatch x with
        | originalImage _ => destruct x eqn:?
        | imageToDownload _ => destruct x eqn:?
        | truthy _ => destruct x eqn:?
        | negb (truthy _) => destruct x eqn:?
        | examplePrompts !! _ => destruct x eqn:?
        end; simpl
    end.

Ltac unchanged := intros Hne; exfalso; apply Hne; open_handlers; congruence.

(** X19. Each part of the state has its own writers. Only a submit or a
    full reset changes the ledger, so it survives uploads, failures and
    downloads; only a submit starts a submission; only the closing of the
    modal saves a file; only a release request or the closing of the modal
    touches the pending download; and only an upload, a loaded example or a
    full reset changes the image. *)
Theorem step_writers (w : World) (e : Event) :
  (promptHistory (app (step w e)) ≠ promptHistory (app w) →
     e = Submitted ∨ e = ResetClicked)
  ∧ (submissions (step w e) ≠ submissions w → e = Submitted)
  ∧ (downloads (step w e) ≠ downloads w → e = AdModalClosed)
  ∧ (imageToDownload (app (step w e)) ≠ imageToDownload (app w) →
       (∃ url, e = DownloadRequested url) ∨ e = AdModalClosed)
  ∧ (originalImage (app (step w e)) ≠ originalImage (app w) →
       (∃ file, e = ImageUploaded file)
       ∨ (∃ imageUrl examplePrompt blobType bytes,
            e = ExampleSettled imageUrl examplePrompt (FetchedBlob blobType bytes))
       ∨ e = ResetClicked).
Proof.
  split_and!.
  - destruct e as [file| |url p o| |v|i|p| |o|url|]; simpl;
      try (by left); try (by right); try destruct o as [?|[?|]];
      try destruct o; unchanged.
  - destruct e as [file| |url p o| |v|i|p| |o|url|]; simpl;
      try done; try destruct o as [?|[?|]]; try destruct o; unchanged.
  - destruct e as [file| |url p o| |v|i|p| |o|url|]; simpl;
      try done; try destruct o as [?|[?|]]; try destruct o; unchanged.
  - destruct e as [file| |url p o| |v|i|p| |o|url|]; simpl;
      try (by right); try (left; by exists url);
      try destruct o as [?|[?|]]; try destruct o; unchanged.
  - destruct e as [file| |url p o| |v|i|p| |o|url|]; simpl;
      try (left; by exists file); try (by right; right);
      try destruct o as [?|[?|]]; try destruct o as [| | |blobType bytes];
      try (intros _; right; left; by exists url, p, blobType, bytes);
      unchanged.
Qed.

(** ** The page while a submission is loading *)

(** X20. While the form is on the page and a submission is loading, the
    Edited panel shows the loader and never an image, no Download button
    exists, no error banner is shown whatever [error] holds, and clicks on
    the submit and download buttons change nothing. *)
Theorem loading_page (w : World) :
  formRendered (app w) = true →
  isLoading (app w) = true →
  editedPanel (app w) = Some ShowLoader
  ∧ downloadButton (app w) = None
  ∧ errorBanner (app w) = None
  ∧ clickSubmit w = w
  ∧ clickDownload w = w.
Proof.
  intros Hform Hload.
  assert (downloadButton (app w) = None) as Hbutton.
  { unfold downloadButton. rewrite Hform, Hload.
    destruct (editedResult (app w)) as [[[url|] ?]|]; simpl; [|done..].
    by rewrite andb_false_r. }
  split_and!.
  - unfold editedPanel. by rewrite Hform, Hload.
  - exact Hbutton.
  - unfold errorBanner. rewrite Hform, Hload.
    destruct (error (app w)) as [message|]; [|done]. by destruct (truthy message).
  - unfold clickSubmit, submitDisabled. rewrite Hload. simpl.
    by rewrite andb_false_r.
  - unfold clickDownload. by rewrite Hbutton.
Qed.

Lemma loading_page_witness :
  editedPanel (app Sample.inFlight) = Some ShowLoader
  ∧ downloadButton (app Sample.inFlight) = None.
Proof.
  pose proof (loading_page Sample.inFlight eq_refl eq_refl)
    as (Hpanel & Hbutton & _).
  split; [exact Hpanel|exact Hbutton].
Defined.
